(** * Airline status checker: the status-classification heuristic

    A shallow embedding of [AirlineChecker.analyze_status]
    (src/airline_checker.py) together with the parts of Python's [str] and
    [re] that it calls, and the properties of the classifier; then of the
    lookup, the report and the script around it.

    Python strings are sequences of code points.  The embedding covers texts
    whose code points lie in 0..255: a character is an [ascii], read as the
    code point of that number, and the character tables below ([str.lower],
    [str.isspace], [\d], [\w]) are those of CPython on that range.  Beyond
    that range [str.lower] is no longer a map of single characters and
    [[A-Z]] under [re.IGNORECASE] accepts four more characters (U+0130,
    U+0131, U+017F, U+212A); a property that does not hold there says so. *)

From Stdlib Require Import Ascii String DecimalString List Bool Arith Lia.
Import ListNotations.

Set Implicit Arguments.

(* ================================================================= *)
(** * Python strings *)

Module Py.

Definition pystr := list ascii.

(** A string literal of the source. *)
Definition str (s : string) : pystr := list_ascii_of_string s.

(** [ord(c)] *)
Definition ord (c : ascii) : nat := nat_of_ascii c.

Definition between (lo hi n : nat) : bool := (lo <=? n) && (n <=? hi).

Definition newline : ascii := ascii_of_nat 10.

(** [c.lower()] for one character: A-Z, and the capital letters
    U+00C0..U+00DE without the multiplication sign U+00D7. *)
Definition lower_char (c : ascii) : ascii :=
  let n := ord c in
  if between 65 90 n || (between 192 222 n && negb (n =? 215))
  then ascii_of_nat (n + 32)
  else c.

(** [s.lower()] *)
Definition lower (s : pystr) : pystr := map lower_char s.

(** [c.isspace()], which is also the class [\s] and what [strip] removes. *)
Definition isspace (c : ascii) : bool :=
  let n := ord c in
  between 9 13 n || between 28 32 n || (n =? 133) || (n =? 160).

(** The class [\d]: decimal digits. *)
Definition isdecimal (c : ascii) : bool := between 48 57 (ord c).

(** [c.isalnum()]: letters, digits and the numeric signs of the range. *)
Definition isalnum (c : ascii) : bool :=
  let n := ord c in
  between 48 57 n || between 65 90 n || between 97 122 n
  || (n =? 170) || (n =? 178) || (n =? 179) || (n =? 181) || (n =? 185)
  || (n =? 186) || between 188 190 n
  || between 192 214 n || between 216 246 n || between 248 255 n.

(** The class [\w]. *)
Definition isword (c : ascii) : bool := isalnum c || (ord c =? 95).

(** [s.startswith(p)] *)
Fixpoint startswith (p s : pystr) : bool :=
  match p, s with
  | [], _ => true
  | _ :: _, [] => false
  | a :: p', b :: s' => Ascii.eqb a b && startswith p' s'
  end.

(** [p in s]: [p] occurs in [s] as a substring. *)
Fixpoint str_in (p s : pystr) : bool :=
  startswith p s ||
  match s with
  | [] => false
  | _ :: s' => str_in p s'
  end.

(** [s.find(p)], with [None] for -1: where [p] first occurs in [s]. *)
Fixpoint find (p s : pystr) : option nat :=
  if startswith p s then Some 0
  else match s with
       | [] => None
       | _ :: s' => option_map S (find p s')
       end.

(** [s.lstrip()], [s.rstrip()], [s.strip()] *)
Fixpoint lstrip (s : pystr) : pystr :=
  match s with
  | c :: s' => if isspace c then lstrip s' else s
  | [] => []
  end.

Definition rstrip (s : pystr) : pystr := rev (lstrip (rev s)).

Definition strip (s : pystr) : pystr := rstrip (lstrip s).

(** [s[a:b]] for [a <= b <= len(s)] *)
Definition slice (s : pystr) (a b : nat) : pystr := firstn (b - a) (skipn a s).

(** Truth value of an optional string: [None] and [''] are false. *)
Definition truthy (o : option pystr) : bool :=
  match o with
  | Some (_ :: _) => true
  | _ => false
  end.

End Py.

Import Py.

(* ================================================================= *)
(** * The fragment of Python's [re] used by the checker *)

Module Re.

Inductive category := CatDigit | CatSpace | CatWord.

(** Members of a bracketed set. *)
Inductive setitem :=
| SChar (c : ascii)
| SRange (lo hi : ascii)
| SCat (k : category).

(** What matches a single character. *)
Inductive atom :=
| Lit (c : ascii)
| Dot
| Cat (k : category)
| Bracket (items : list setitem).

(** Patterns.  The quantifiers of the checker's patterns all apply to a
    single-character atom: [Repeat a lo hi greedy] is [a{lo,hi}] or, when
    [greedy] is false, [a{lo,hi}?]; [hi = None] is no upper bound. *)
Inductive regex :=
| Eps
| Atom (a : atom)
| Dollar
| Seq (r1 r2 : regex)
| Alt (r1 r2 : regex)
| Repeat (a : atom) (lo : nat) (hi : option nat) (greedy : bool)
| Group (r : regex).

(** The literal text [s] as a pattern. *)
Fixpoint lits (s : pystr) : regex :=
  match s with
  | [] => Eps
  | c :: s' => Seq (Atom (Lit c)) (lits s')
  end.

Definition cat_match (k : category) (c : ascii) : bool :=
  match k with
  | CatDigit => isdecimal c
  | CatSpace => isspace c
  | CatWord => isword c
  end.

(** Under [re.IGNORECASE] a literal and the subject character are compared
    after lowercasing, and a range is replaced by the lowercase images of
    its members. *)
Definition lit_match (ic : bool) (x c : ascii) : bool :=
  if ic then Ascii.eqb (lower_char x) (lower_char c) else Ascii.eqb x c.

Definition range_match (ic : bool) (lo hi c : ascii) : bool :=
  if ic
  then existsb (fun n => Ascii.eqb (lower_char (ascii_of_nat n)) (lower_char c))
               (seq (ord lo) (S (ord hi) - ord lo))
  else between (ord lo) (ord hi) (ord c).

Definition item_match (ic : bool) (c : ascii) (i : setitem) : bool :=
  match i with
  | SChar x => lit_match ic x c
  | SRange lo hi => range_match ic lo hi c
  | SCat k => cat_match k c
  end.

Definition atom_match (ic : bool) (a : atom) (c : ascii) : bool :=
  match a with
  | Lit x => lit_match ic x c
  | Dot => negb (Ascii.eqb c newline)
  | Cat k => cat_match k c
  | Bracket items => existsb (item_match ic c) items
  end.

(** [$] without [re.MULTILINE]: at the end of the subject, or just before
    a newline that ends it. *)
Definition at_end (s : pystr) : bool :=
  match s with
  | [] => true
  | [c] => Ascii.eqb c newline
  | _ => false
  end.

Definition room (hi : option nat) : bool :=
  match hi with
  | Some 0 => false
  | _ => true
  end.

Definition dec (hi : option nat) : option nat := option_map pred hi.

(** A span [(a, b)] of the subject, counted from where the attempt began. *)
Definition span := (nat * nat)%type.

Section Matcher.

Variable R : Type.

(** [re.IGNORECASE] *)
Variable ic : bool.

(** The rest of the pattern: it receives the unread subject, the number
    of characters read so far and the span of group 1, and fails with
    [None], which makes the matcher backtrack. *)
Definition cont := pystr -> nat -> option span -> option R.

(** Greedy repetition: one more character first, the rest of the pattern
    only when that fails. *)
Fixpoint rep_greedy (a : atom) (lo : nat) (hi : option nat)
    (s : pystr) (n : nat) (g : option span) (k : cont) {struct s} : option R :=
  let stop := match lo with 0 => k s n g | S _ => None end in
  match s with
  | c :: s' =>
      if room hi && atom_match ic a c then
        match rep_greedy a (pred lo) (dec hi) s' (S n) g k with
        | Some x => Some x
        | None => stop
        end
      else stop
  | [] => stop
  end.

(** Lazy repetition: the rest of the pattern first, one more character
    only when that fails. *)
Fixpoint rep_lazy (a : atom) (lo : nat) (hi : option nat)
    (s : pystr) (n : nat) (g : option span) (k : cont) {struct s} : option R :=
  let more :=
    match s with
    | c :: s' =>
        if room hi && atom_match ic a c
        then rep_lazy a (pred lo) (dec hi) s' (S n) g k
        else None
    | [] => None
    end in
  match lo with
  | 0 => match k s n g with
         | Some x => Some x
         | None => more
         end
  | S _ => more
  end.

(** The backtracking matcher, alternatives tried from left to right. *)
Fixpoint rmatch (r : regex) (s : pystr) (n : nat) (g : option span)
    (k : cont) {struct r} : option R :=
  match r with
  | Eps => k s n g
  | Atom a =>
      match s with
      | c :: s' => if atom_match ic a c then k s' (S n) g else None
      | [] => None
      end
  | Dollar => if at_end s then k s n g else None
  | Seq r1 r2 => rmatch r1 s n g (fun s' n' g' => rmatch r2 s' n' g' k)
  | Alt r1 r2 =>
      match rmatch r1 s n g k with
      | Some x => Some x
      | None => rmatch r2 s n g k
      end
  | Repeat a lo hi greedy =>
      if greedy then rep_greedy a lo hi s n g k else rep_lazy a lo hi s n g k
  | Group r1 => rmatch r1 s n g (fun s' n' _ => k s' n' (Some (n, n')))
  end.

End Matcher.

(** A match object: where the match lies in the subject and the text of
    group 1, [None] when the group took no part in the match. *)
Record Match := {
  m_start : nat;
  m_end : nat;
  group1 : option pystr
}.

(** One attempt, at the position where [s] begins. *)
Definition match_here (ic : bool) (r : regex) (s : pystr) (pos : nat)
  : option Match :=
  rmatch ic r s 0 None
    (fun _ n g =>
       Some {| m_start := pos; m_end := pos + n;
               group1 := option_map (fun ab => slice s (fst ab) (snd ab)) g |}).

(** [re.search]: the attempt is made at every position from left to right,
    the end of the subject included, and the first success is returned. *)
Fixpoint search_from (ic : bool) (r : regex) (s : pystr) (pos : nat)
  : option Match :=
  match match_here ic r s pos with
  | Some m => Some m
  | None =>
      match s with
      | [] => None
      | _ :: s' => search_from ic r s' (S pos)
      end
  end.

Definition search (ic : bool) (r : regex) (text : pystr) : option Match :=
  search_from ic r text 0.

End Re.

Import Re.

(* ================================================================= *)
(** * The checker *)

(** What a call can touch besides its arguments: the receiver's session
    (its headers, set by [__init__]) and what has been printed. *)
Record World := {
  session_headers : list (pystr * pystr);
  stdout : list pystr
}.

Inductive exn := AttributeError.

Inductive Outcome (A : Type) :=
| Returns (a : A)
| Raises (e : exn).

Arguments Returns {A} a.
Arguments Raises {A} e.

(** Computations that may read and change the world and may raise. *)
Definition M (A : Type) := World -> Outcome A * World.

Definition ret {A} (a : A) : M A := fun w => (Returns a, w).

Definition raise {A} (e : exn) : M A := fun w => (Raises e, w).

Definition bind {A B} (m : M A) (f : A -> M B) : M B :=
  fun w =>
    match m w with
    | (Returns a, w') => f a w'
    | (Raises e, w') => (Raises e, w')
    end.

Notation "x <- m ;; f" := (bind m (fun x => f))
  (at level 100, m at next level, right associativity).

(** The status label.  The source builds it as text:
    [Defunct y] is 'НЕ ДЕЙСТВУЕТ (прекращена y)', with 'дата неизвестна'
    in place of the year when [y] is [None]; [Operating] is 'ДЕЙСТВУЕТ';
    [Renamed] is 'ПЕРЕИМЕНОВАНА'; [Unknown] is 'СТАТУС НЕИЗВЕСТЕН'. *)
Inductive Status :=
| Defunct (year : option pystr)
| Operating
| Renamed
| Unknown.

(** 'ВЫСОКИЙ', 'СРЕДНИЙ', 'НИЗКИЙ' *)
Inductive Confidence := High | Medium | Low.

(** The returned dict.  [new_name = None] stands for the placeholder
    'Н/Д', which no extracted name can equal (a name has no '/'). *)
Record Analysis := {
  status : Status;
  new_name : option pystr;
  confidence : Confidence;
  ceased_year : option pystr
}.

Definition defunct_keywords : list pystr := map str [
  "ceased operations"; "defunct"; "no longer operates";
  "discontinued"; "liquidated"; "bankrupt"; "shut down";
  "stopped flying"; "ended operations"; "closed down";
  "ceased trading"; "went out of business"
]%string.

Definition operating_keywords : list pystr := map str [
  "currently operates"; "operating"; "operates flights";
  "active airline"; "continues to operate"; "flying";
  "serves destinations"; "scheduled flights"; "is operating"
]%string.

Definition renamed_keywords : list pystr := map str [
  "renamed to"; "rebranded as"; "now known as";
  "changed its name to"; "became"; "merged with";
  "acquired by"; "replaced by"
]%string.

(** [any(keyword in text for keyword in keywords)] *)
Definition any_in (keywords : list pystr) (text : pystr) : bool :=
  existsb (fun keyword => str_in keyword text) keywords.

Definition is_defunct (text_lower : pystr) : bool :=
  any_in defunct_keywords text_lower.

Definition is_operating (text_lower : pystr) : bool :=
  any_in operating_keywords text_lower.

Definition is_renamed (text_lower : pystr) : bool :=
  any_in renamed_keywords text_lower.

(** [r'ceased operations?.*?(\d{4})'] *)
Definition ceased_date_pattern : regex :=
  Seq (lits (str "ceased operation"))
 (Seq (Repeat (Lit "s") 0 (Some 1) true)
 (Seq (Repeat Dot 0 None false)
      (Group (Repeat (Cat CatDigit) 4 (Some 4) true)))).

(** [(?:\.|,|\sin\s|\sfrom\s|$)] *)
Definition name_end : regex :=
  Alt (Atom (Lit "."))
 (Alt (Atom (Lit ","))
 (Alt (Seq (Atom (Cat CatSpace)) (Seq (lits (str "in")) (Atom (Cat CatSpace))))
 (Alt (Seq (Atom (Cat CatSpace)) (Seq (lits (str "from")) (Atom (Cat CatSpace))))
      Dollar))).

(** [[\w\s&-]] *)
Definition name_char : atom :=
  Bracket [SCat CatWord; SCat CatSpace; SChar "&"; SChar "-"].

(** [f'{keyword}\\s+([A-Z][\\w\\s&-]+?)(?:\\.|,|\\sin\\s|\\sfrom\\s|$)'] *)
Definition name_pattern (keyword : pystr) : regex :=
  Seq (lits keyword)
 (Seq (Repeat (Cat CatSpace) 1 None true)
 (Seq (Group (Seq (Atom (Bracket [SRange "A" "Z"]))
                  (Repeat name_char 1 None false)))
      name_end)).

(** [re.search(ceased_date_pattern, text_lower)] and the year taken from
    it: [ceased_match.group(1) if ceased_match else None]. *)
Definition ceased_match (text_lower : pystr) : option Match :=
  search false ceased_date_pattern text_lower.

Definition find_ceased_year (text_lower : pystr) : option pystr :=
  match ceased_match text_lower with
  | Some m => group1 m
  | None => None
  end.

(** [o.strip()] where [o] may be [None]. *)
Definition strip_method (o : option pystr) : M pystr :=
  match o with
  | Some s => ret (strip s)
  | None => raise AttributeError
  end.

(** The loop over [renamed_keywords], left at the first pattern that
    matches. *)
Fixpoint new_name_loop (keywords : list pystr) (text : pystr)
  : M (option pystr) :=
  match keywords with
  | [] => ret None
  | keyword :: rest =>
      let pattern := name_pattern keyword in
      match search true pattern text with
      | Some m => name <- strip_method (group1 m) ;; ret (Some name)
      | None => new_name_loop rest text
      end
  end.

Definition analyze_status (text airline_name : pystr) : M Analysis :=
  let text_lower := lower text in
  let airline_lower := lower airline_name in
  let is_defunct := is_defunct text_lower in
  let is_operating := is_operating text_lower in
  let is_renamed := is_renamed text_lower in
  let ceased_year_ := find_ceased_year text_lower in
  new_name_ <-
    (if is_renamed then new_name_loop renamed_keywords text else ret None) ;;
  let confidence_ :=
    if is_defunct && truthy ceased_year_ then High
    else if is_operating && str_in (str "currently") text_lower then High
    else if is_defunct || is_operating then Medium
    else Low in
  let status_ :=
    if is_defunct
    then Defunct (if truthy ceased_year_ then ceased_year_ else None)
    else if is_operating then Operating
    else if is_renamed && truthy new_name_ then Renamed
    else Unknown in
  ret {| status := status_;
         new_name := if truthy new_name_ then new_name_ else None;
         confidence := confidence_;
         ceased_year := ceased_year_ |}.

(** The world that [AirlineChecker()] and nothing else has touched. *)
Definition init_world : World :=
  {| session_headers :=
       [(str "User-Agent",
         str "Mozilla/5.0 (Windows NT 10.0; Win64; x64) AppleWebKit/537.36")];
     stdout := [] |}.

(* ================================================================= *)
(** * Notions used to state the properties *)

(** The literal text [p] matches at the head of [s]. *)
Fixpoint starts (ic : bool) (p s : pystr) : bool :=
  match p, s with
  | [], _ => true
  | _ :: _, [] => false
  | x :: p', c :: s' => lit_match ic x c && starts ic p' s'
  end.

(** A repetition count allowed by an upper bound. *)
Definition within (hi : option nat) (n : nat) : Prop :=
  match hi with
  | Some h => n <= h
  | None => True
  end.

(** [p] is a substring of [t]. *)
Definition occurs (p t : pystr) : Prop :=
  exists a b, t = a ++ p ++ b.

(** One of the keywords is a substring of the lowercased text. *)
Definition mentions (keywords : list pystr) (text : pystr) : Prop :=
  exists keyword, In keyword keywords /\ occurs keyword (lower text).

(** A year as the pattern extracts it: four decimal digits. *)
Definition four_digits (y : pystr) : Prop :=
  length y = 4 /\ forallb isdecimal y = true.

(** The text that begins the year pattern. *)
Definition ceased_kw : pystr := str "ceased operation".

(** No newline: what [.*?] can read. *)
Definition same_line (b : pystr) : bool :=
  forallb (fun c => negb (Ascii.eqb c newline)) b.

(** What [[A-Z]] accepts under [re.IGNORECASE]: a letter A-Z or a-z. *)
Definition is_letter (c : ascii) : bool :=
  between 65 90 (ord c) || between 97 122 (ord c).

(** What [[\w\s&-]] accepts. *)
Definition in_name (c : ascii) : bool :=
  isword c || isspace c || Ascii.eqb c "&" || Ascii.eqb c "-".

(** White space, the word [word] in either case, white space. *)
Definition spaced_word (word t : pystr) : bool :=
  match t with
  | c :: t' =>
      isspace c && starts true word t' &&
      match skipn (length word) t' with
      | c' :: _ => isspace c'
      | [] => false
      end
  | [] => false
  end.

(** Where a name ends: before a full stop or a comma, before " in " or
    " from ", or where [$] matches. *)
Definition is_boundary (t : pystr) : bool :=
  starts true (str ".") t || starts true (str ",") t
  || spaced_word (str "in") t || spaced_word (str "from") t || at_end t.

(** [n] is the name that follows [keyword] somewhere in [text]: the
    keyword in any letter case, white space, a letter and at least one
    more character of a name, as few as reach a boundary, the whole
    stripped of white space at both ends. *)
Definition successor_of (keyword text n : pystr) : Prop :=
  exists a k' ws c w t,
    text = a ++ k' ++ ws ++ (c :: w) ++ t /\
    lower k' = lower keyword /\
    ws <> [] /\ forallb isspace ws = true /\
    is_letter c = true /\
    w <> [] /\ forallb in_name w = true /\
    is_boundary t = true /\
    (forall w1 w2, w = w1 ++ w2 -> w1 <> [] -> w2 <> [] ->
                   is_boundary (w2 ++ t) = false) /\
    n = strip (c :: w).

(** A name can be read behind [keyword] somewhere in [text]. *)
Definition name_follows (keyword text : pystr) : Prop :=
  exists a k' ws c w t,
    text = a ++ k' ++ ws ++ (c :: w) ++ t /\
    lower k' = lower keyword /\
    ws <> [] /\ forallb isspace ws = true /\
    is_letter c = true /\
    w <> [] /\ forallb in_name w = true /\
    is_boundary t = true.

(** The text begins with one of A-Z. *)
Definition capitalized (n : pystr) : bool :=
  match n with
  | c :: _ => between 65 90 (ord c)
  | [] => false
  end.

(** The phrases of the two worked examples. *)
Definition phrase_1998 : pystr := str "ceased operations in 1998".

Definition phrase_delta : pystr := str "was renamed to Delta Airlines.".

Definition is_some {A} (o : option A) : bool :=
  match o with
  | Some _ => true
  | None => false
  end.

(** The text begins with four decimal digits. *)
Definition digits_ahead (s : pystr) : bool :=
  match s with
  | a :: s1 =>
      isdecimal a &&
      match s1 with
      | b :: s2 =>
          isdecimal b &&
          match s2 with
          | c :: s3 =>
              isdecimal c &&
              match s3 with
              | d :: _ => isdecimal d
              | [] => false
              end
          | [] => false
          end
      | [] => false
      end
  | [] => false
  end.

(** The text begins with "ceased operation" and has four digits behind
    it on the same line. *)
Definition year_at (s : pystr) : Prop :=
  exists b y t,
    s = ceased_kw ++ b ++ y ++ t /\ same_line b = true /\ four_digits y.

(** The text begins with [keyword] in any letter case and has a name
    behind it. *)
Definition name_at (keyword s : pystr) : Prop :=
  exists k' ws c w t,
    s = k' ++ ws ++ (c :: w) ++ t /\
    lower k' = lower keyword /\
    ws <> [] /\ forallb isspace ws = true /\
    is_letter c = true /\
    w <> [] /\ forallb in_name w = true /\
    is_boundary t = true.

(** The name [n] is read behind [keyword] at the head of [s]. *)
Definition name_read (keyword s n : pystr) : Prop :=
  exists k' ws c w t,
    s = k' ++ ws ++ (c :: w) ++ t /\
    lower k' = lower keyword /\
    ws <> [] /\ forallb isspace ws = true /\
    is_letter c = true /\
    w <> [] /\ forallb in_name w = true /\
    is_boundary t = true /\
    (forall w1 w2, w = w1 ++ w2 -> w1 <> [] -> w2 <> [] ->
                   is_boundary (w2 ++ t) = false) /\
    n = strip (c :: w).

(** A match object with the text of its group in lower case. *)
Definition lower_match (m : Match) : Match :=
  {| m_start := m_start m; m_end := m_end m;
     group1 := option_map lower (group1 m) |}.

(* ================================================================= *)
(** * The lookup *)

(** What the lookup can raise: an [AttributeError], [TypeError],
    [KeyError] or [IndexError] of Python on an answer of an unexpected
    shape, an exception of [requests] (no connection, a time-out, a body
    that is not JSON), and [OSError] when a report cannot be written.
    Where the source uses [str(e)], the exception itself is kept.  What
    the report can raise besides: [IllegalCharacterError] of openpyxl,
    when a cell is given a string with a control character. *)
Inductive error :=
| OfExn (e : exn)
| TypeError
| KeyError
| IndexError
| RequestException (what : pystr)
| OSError
| IllegalCharacterError.

Inductive Res (A : Type) :=
| Ok (a : A)
| Err (e : error).

Arguments Ok {A} a.
Arguments Err {A} e.

(** [a == b] on strings *)
Definition str_eqb (a b : pystr) : bool := startswith a b && startswith b a.

Section Script.

(** Python's numbers, [int] and [float]: the lookup only asks whether one
    is zero. *)
Variable number : Type.
Variable is_zero : number -> bool.

(** What [response.json()] returns.  The items of a [JDict] are the keys
    of the dict, in its order, with their values. *)
#[warnings="-register-all"]
Inductive Json :=
| JNone
| JBool (b : bool)
| JNum (x : number)
| JStr (s : pystr)
| JList (items : list Json)
| JDict (items : list (pystr * Json)).

(** [len(j)] *)
Definition py_len (j : Json) : Res nat :=
  match j with
  | JStr s => Ok (length s)
  | JList items => Ok (length items)
  | JDict items => Ok (length items)
  | _ => Err TypeError
  end.

(** [j[i]] for an index [i] that is a literal 0, 1 or 2: a dict from JSON
    has strings as keys and none of them is [i]. *)
Definition py_item (j : Json) (i : nat) : Res Json :=
  match j with
  | JList items =>
      match nth_error items i with
      | Some x => Ok x
      | None => Err IndexError
      end
  | JStr s =>
      match nth_error s i with
      | Some c => Ok (JStr [c])
      | None => Err IndexError
      end
  | JDict _ => Err KeyError
  | _ => Err TypeError
  end.

Fixpoint dict_lookup (key : pystr) (items : list (pystr * Json))
  : option Json :=
  match items with
  | [] => None
  | (k, v) :: rest => if str_eqb k key then Some v else dict_lookup key rest
  end.

(** [j.get(key, default)] *)
Definition py_get (j : Json) (key : pystr) (default : Json) : Res Json :=
  match j with
  | JDict items =>
      match dict_lookup key items with
      | Some v => Ok v
      | None => Ok default
      end
  | _ => Err (OfExn AttributeError)
  end.

(** [list(j.values())[0]] *)
Definition py_first_value (j : Json) : Res Json :=
  match j with
  | JDict ((_, v) :: _) => Ok v
  | JDict [] => Err IndexError
  | _ => Err (OfExn AttributeError)
  end.

(** [j.lower()] *)
Definition py_lower (j : Json) : Res pystr :=
  match j with
  | JStr s => Ok (lower s)
  | _ => Err (OfExn AttributeError)
  end.

(** The truth value of [j] *)
Definition py_bool (j : Json) : bool :=
  match j with
  | JNone => false
  | JBool b => b
  | JNum x => negb (is_zero x)
  | JStr [] => false
  | JStr (_ :: _) => true
  | JList [] => false
  | JList (_ :: _) => true
  | JDict [] => false
  | JDict (_ :: _) => true
  end.

(** The two requests of the lookup, by what varies in their parameters:
    the opensearch for a name (limit 5) and the query for the plain-text
    introduction of a title. *)
Inductive Request :=
| Opensearch (search : pystr)
| Extracts (titles : Json).

(** What comes back: [session.get] or [response.json()] raises, or there
    is a JSON body. *)
Inductive Reply :=
| Fails (what : pystr)
| Answers (body : Json).

(** The dict that [check_wikipedia] returns: found False with the error,
    if any, or found True with title, url and extract. *)
Inductive WikiResult :=
| NotFound (err : option error)
| Found (title url : Json) (extract : pystr).

(** The status of a row of the report: 'ИНФОРМАЦИЯ НЕ НАЙДЕНА' or the
    status of the analysis. *)
Inductive ReportStatus :=
| NoInformation
| Analysed (s : Status).

(** The source of a row: 'Информация не найдена в доступных источниках'
    or 'Wikipedia: ' with the url. *)
Inductive Source :=
| NotAvailable
| Wikipedia (url : Json).

(** The dict that [check_airline] returns. *)
Record CheckResult := {
  airline : pystr;
  result_status : ReportStatus;
  result_new_name : option pystr;
  result_confidence : Confidence;
  source : Source
}.

(** ** The workbook *)

(** The value of a cell: nothing, a number, one of the fixed texts of the
    report (kept in UTF-8), a string, or a field of a row. *)
Inductive Value :=
| VNone
| VInt (n : nat)
| VLabel (text : string)
| VStr (s : pystr)
| VStatus (s : ReportStatus)
| VNewName (n : option pystr)
| VConfidence (c : Confidence)
| VSource (s : Source)
| VStamp (s : pystr).

Record PatternFill := {
  start_color : string;
  end_color : string;
  fill_type : string
}.

Record Font := {
  bold : bool;
  color : string;
  size : nat
}.

Record Alignment := {
  horizontal : option string;
  vertical : option string;
  wrap_text : option bool
}.

(** A cell; [None] is the style that openpyxl gives by default. *)
Record Cell := {
  value : Value;
  fill : option PatternFill;
  font : option Font;
  alignment : option Alignment
}.

Definition empty_cell : Cell :=
  {| value := VNone; fill := None; font := None; alignment := None |}.

Record Sheet := {
  sheet_title : string;
  cells : nat -> nat -> Cell;
  column_width : string -> option nat;
  freeze_panes : option string
}.

Definition Workbook := list Sheet.

Definition new_sheet (title : string) : Sheet :=
  {| sheet_title := title;
     cells := fun _ _ => empty_cell;
     column_width := fun _ => None;
     freeze_panes := None |}.

(** [ws.cell(row, column)] changed by [f] *)
Definition update_cell (row column : nat) (f : Cell -> Cell) (ws : Sheet)
  : Sheet :=
  {| sheet_title := sheet_title ws;
     cells := fun r c =>
                if (r =? row) && (c =? column)
                then f (cells ws r c) else cells ws r c;
     column_width := column_width ws;
     freeze_panes := freeze_panes ws |}.

Definition set_value (v : Value) (c : Cell) : Cell :=
  {| value := v; fill := fill c; font := font c; alignment := alignment c |}.

Definition set_fill (x : PatternFill) (c : Cell) : Cell :=
  {| value := value c; fill := Some x; font := font c;
     alignment := alignment c |}.

Definition set_font (x : Font) (c : Cell) : Cell :=
  {| value := value c; fill := fill c; font := Some x;
     alignment := alignment c |}.

Definition set_alignment (x : Alignment) (c : Cell) : Cell :=
  {| value := value c; fill := fill c; font := font c;
     alignment := Some x |}.

Definition set_width (column : string) (width : nat) (ws : Sheet) : Sheet :=
  {| sheet_title := sheet_title ws;
     cells := cells ws;
     column_width := fun c => if String.eqb c column then Some width
                              else column_width ws c;
     freeze_panes := freeze_panes ws |}.

Definition set_freeze (cell : string) (ws : Sheet) : Sheet :=
  {| sheet_title := sheet_title ws;
     cells := cells ws;
     column_width := column_width ws;
     freeze_panes := Some cell |}.

(** [enumerate(l, start)] *)
Definition enumerate {A} (l : list A) (start : nat) : list (nat * A) :=
  combine (seq start (length l)) l.

Definition solid (rgb : string) : PatternFill :=
  {| start_color := rgb; end_color := rgb; fill_type := "solid" |}.

Definition headers : list string :=
  ["№"; "Название авиакомпании"; "Статус";
   "Новое название (если переименована)";
   "Уровень уверенности"; "Источник информации"]%string.

Definition header_fill : PatternFill := solid "4472C4".

Definition header_font : Font :=
  {| bold := true; color := "FFFFFF"; size := 11 |}.

(** [confidence_colors[c]]: every confidence is a key of the dict. *)
Definition confidence_colors (c : Confidence) : PatternFill :=
  match c with
  | High => solid "C6EFCE"
  | Medium => solid "FFEB9C"
  | Low => solid "FFC7CE"
  end.

(** The body of the loop over the headers. *)
Definition write_header (ws : Sheet) (ch : nat * string) : Sheet :=
  let (col, header) := ch in
  let ws := update_cell 1 col (set_value (VLabel header)) ws in
  let ws := update_cell 1 col (set_fill header_fill) ws in
  let ws := update_cell 1 col (set_font header_font) ws in
  update_cell 1 col
    (set_alignment {| horizontal := Some "center"%string;
                      vertical := Some "center"%string;
                      wrap_text := Some true |}) ws.

(** The body of the loop over the results. *)
Definition write_row (ws : Sheet) (ir : nat * CheckResult) : Sheet :=
  let (idx, result) := ir in
  let ws := update_cell idx 1 (set_value (VInt (idx - 1))) ws in
  let ws := update_cell idx 2 (set_value (VStr (airline result))) ws in
  let ws := update_cell idx 3 (set_value (VStatus (result_status result))) ws in
  let ws := update_cell idx 4
              (set_value (VNewName (result_new_name result))) ws in
  let ws := update_cell idx 5
              (set_value (VConfidence (result_confidence result))) ws in
  let ws := update_cell idx 5
              (set_fill (confidence_colors (result_confidence result))) ws in
  let ws := update_cell idx 5
              (set_alignment {| horizontal := Some "center"%string;
                                vertical := Some "center"%string;
                                wrap_text := None |}) ws in
  let ws := update_cell idx 6 (set_value (VSource (source result))) ws in
  fold_left
    (fun ws col =>
       update_cell idx col
         (set_alignment {| horizontal := None;
                           vertical := Some "center"%string;
                           wrap_text := Some true |}) ws)
    (seq 1 6) ws.

(** The first sheet of the report. *)
Definition status_sheet (results : list CheckResult) : Sheet :=
  let ws := new_sheet "Статус авиакомпаний" in
  let ws := fold_left write_header (enumerate headers 1) ws in
  let ws := set_width "A" 5 ws in
  let ws := set_width "B" 35 ws in
  let ws := set_width "C" 30 ws in
  let ws := set_width "D" 35 ws in
  let ws := set_width "E" 18 ws in
  let ws := set_width "F" 50 ws in
  let ws := fold_left write_row (enumerate results 2) ws in
  set_freeze "A2" ws.

Definition info_data (now : pystr) (results : list CheckResult)
  : list (list Value) :=
  [ [VLabel "Отчет о проверке статуса авиакомпаний"];
    [VLabel "Дата создания:"; VStamp now];
    [VLabel "Всего проверено:"; VInt (length results)];
    [VLabel ""];
    [VLabel "Легенда уровней уверенности:"];
    [VConfidence High;
     VLabel "Информация подтверждена из надежных источников, найдены конкретные даты и факты"];
    [VConfidence Medium;
     VLabel "Информация найдена, но требует дополнительной проверки"];
    [VConfidence Low; VLabel "Информация не найдена или противоречива"];
    [VLabel ""];
    [VLabel "Статусы:"];
    [VStatus (Analysed Operating);
     VLabel "Авиакомпания выполняет регулярные рейсы"];
    [VLabel "НЕ ДЕЙСТВУЕТ"; VLabel "Авиакомпания прекратила операции"];
    [VStatus (Analysed Renamed); VLabel "Авиакомпания изменила название"];
    [VStatus NoInformation;
     VLabel "Не удалось найти информацию в доступных источниках"] ]%string.

(** The second sheet of the report. *)
Definition info_sheet (now : pystr) (results : list CheckResult) : Sheet :=
  let info_ws := new_sheet "Информация" in
  let info_ws :=
    fold_left
      (fun ws rr =>
         let '(row_idx, row_data) := rr in
         fold_left
           (fun ws cv =>
              let '(col_idx, v) := cv in
              update_cell row_idx col_idx (set_value v) ws)
           (enumerate row_data 1) ws)
      (enumerate (info_data now results) 1) info_ws in
  let info_ws := set_width "A" 30 info_ws in
  set_width "B" 80 info_ws.

(** ** The environment *)

(** What is printed, by its kind and its values. *)
Inductive Line :=
| Checking (airline_name : pystr)
| WikipediaError (airline_name : pystr) (e : error)
| ReportSaved (filename : pystr)
| Total (n : nat)
| Rule
| Progress (idx n : nat)
| Intermediate (idx : nat)
| StatisticsTitle
| Checked (n : nat)
| InformationFound (n : nat)
| InformationNotFound (n : nat)
| HighConfidence (n : nat)
| MediumConfidence (n : nat)
| LowConfidence (n : nat)
| FinalReport (filename : pystr).

(** Besides the world of the checker: how the network answers a request,
    given all the requests sent so far, this one last; the requests sent;
    what has been printed; the clock, read by [datetime.now()]; which
    files can be written; the files written. *)
Record Env := {
  world : World;
  network : list Request -> Reply;
  sent : list Request;
  console : list Line;
  clock : nat -> pystr;
  ticks : nat;
  writable : pystr -> bool;
  files : list (pystr * Workbook)
}.

Definition IO (A : Type) := Env -> Res A * Env.

Definition io_ret {A} (a : A) : IO A := fun env => (Ok a, env).

Definition io_raise {A} (e : error) : IO A := fun env => (Err e, env).

Definition io_bind {A B} (m : IO A) (f : A -> IO B) : IO B :=
  fun env =>
    match m env with
    | (Ok a, env') => f a env'
    | (Err e, env') => (Err e, env')
    end.

(** A value or an exception of Python, in the environment. *)
Definition io {A} (r : Res A) : IO A :=
  match r with
  | Ok a => io_ret a
  | Err e => io_raise e
  end.

(** [try: body except Exception as e: handler(e)] *)
Definition try_except {A} (body : IO A) (handler : error -> IO A) : IO A :=
  fun env =>
    match body env with
    | (Ok a, env') => (Ok a, env')
    | (Err e, env') => handler e env'
    end.

(** A method of the checker, run in the world of the environment. *)
Definition in_world {A} (m : M A) : IO A :=
  fun env =>
    let (out, w) := m (world env) in
    let env' :=
      {| world := w; network := network env; sent := sent env;
         console := console env; clock := clock env; ticks := ticks env;
         writable := writable env; files := files env |} in
    match out with
    | Returns a => (Ok a, env')
    | Raises e => (Err (OfExn e), env')
    end.

(** [print] *)
Definition print (l : Line) : IO unit :=
  fun env =>
    (Ok tt,
     {| world := world env; network := network env; sent := sent env;
        console := console env ++ [l]; clock := clock env;
        ticks := ticks env; writable := writable env; files := files env |}).

(** [self.session.get(search_url, params=..., timeout=10).json()] *)
Definition session_get (q : Request) : IO Json :=
  fun env =>
    let sent' := sent env ++ [q] in
    let env' :=
      {| world := world env; network := network env; sent := sent';
         console := console env; clock := clock env; ticks := ticks env;
         writable := writable env; files := files env |} in
    match network env sent' with
    | Fails what => (Err (RequestException what), env')
    | Answers body => (Ok body, env')
    end.

(** [datetime.now().strftime('%Y-%m-%d %H:%M:%S')] *)
Definition now : IO pystr :=
  fun env =>
    (Ok (clock env (ticks env)),
     {| world := world env; network := network env; sent := sent env;
        console := console env; clock := clock env; ticks := S (ticks env);
        writable := writable env; files := files env |}).

(** [wb.save(filename)] *)
Definition save (wb : Workbook) (filename : pystr) : IO unit :=
  fun env =>
    if writable env filename
    then (Ok tt,
          {| world := world env; network := network env; sent := sent env;
             console := console env; clock := clock env; ticks := ticks env;
             writable := writable env;
             files := files env ++ [(filename, wb)] |})
    else (Err OSError, env).

Notation "x <~ m ;; f" := (io_bind m (fun x => f))
  (at level 100, m at next level, right associativity).

Definition check_wikipedia (airline_name : pystr) : IO WikiResult :=
  try_except
    (results <~ session_get (Opensearch airline_name) ;;
     n <~ io (py_len results) ;;
     hit <~ (if 1 <? n
             then (second <~ io (py_item results 1) ;;
                   m <~ io (py_len second) ;;
                   io_ret (0 <? m))
             else io_ret false) ;;
     if hit then
       second <~ io (py_item results 1) ;;
       article_title <~ io (py_item second 0) ;;
       content_data <~ session_get (Extracts article_title) ;;
       query <~ io (py_get content_data (str "query") (JDict [])) ;;
       pages <~ io (py_get query (str "pages") (JDict [])) ;;
       if py_bool pages then
         page <~ io (py_first_value pages) ;;
         e <~ io (py_get page (str "extract") (JStr [])) ;;
         extract <~ io (py_lower e) ;;
         n' <~ io (py_len results) ;;
         url <~ (if 2 <? n'
                 then (third <~ io (py_item results 2) ;;
                       io (py_item third 0))
                 else io_ret (JStr [])) ;;
         io_ret (Found article_title url extract)
       else io_ret (NotFound None)
     else io_ret (NotFound None))
    (fun e =>
       _ <~ print (WikipediaError airline_name e) ;;
       io_ret (NotFound (Some e))).

Definition check_airline (airline_name : pystr) : IO CheckResult :=
  _ <~ print (Checking airline_name) ;;
  wiki_result <~ check_wikipedia airline_name ;;
  match wiki_result with
  | NotFound _ =>
      io_ret {| airline := airline_name;
                result_status := NoInformation;
                result_new_name := None;
                result_confidence := Low;
                source := NotAvailable |}
  | Found _ url extract =>
      analysis <~ in_world (analyze_status extract airline_name) ;;
      io_ret {| airline := airline_name;
                result_status := Analysed (status analysis);
                result_new_name := new_name analysis;
                result_confidence := confidence analysis;
                source := Wikipedia url |}
  end.

(** ** What a cell accepts *)

(** [ILLEGAL_CHARACTERS_RE] of openpyxl,
    [[\000-\010]|[\013-\014]|[\016-\037]]: the control characters other
    than tab, line feed and carriage return. *)
Definition illegal_char (c : ascii) : bool :=
  let n := ord c in
  (n <=? 8) || between 11 12 n || between 14 31 n.

(** [Cell.check_string] of openpyxl, for the string that has [s] behind a
    fixed text of [prefix] characters: the string is cut to its first
    32767 characters, and refused when one of these is illegal. *)
#[warnings="-abstract-large-number"]
Definition refused_text (prefix : nat) (s : pystr) : bool :=
  existsb illegal_char (firstn (32767 - prefix) s).

(** Whether [ws.cell(row, column, value=v)] raises
    [IllegalCharacterError].  The fixed texts of the report hold no
    illegal character; a status holds the year behind 25 characters, a
    source the URL of the article behind "Wikipedia: ", where what is
    not a string is formatted without a control character. *)
Definition refused (v : Value) : bool :=
  match v with
  | VStr s => refused_text 0 s
  | VStatus (Analysed (Defunct (Some year))) => refused_text 25 year
  | VNewName (Some n) => refused_text 0 n
  | VSource (Wikipedia (JStr url)) => refused_text 11 url
  | _ => false
  end.

(** Whether one of the cell writes of the loop over the results raises
    for this result. *)
Definition refused_row (result : CheckResult) : bool :=
  refused (VStr (airline result))
  || refused (VStatus (result_status result))
  || refused (VNewName (result_new_name result))
  || refused (VSource (source result)).

(** The first sheet is filled before anything else is done: a cell write
    that raises ends the call, and of the workbook, which is local to
    the call, nothing is seen.  Then the time is read for the second
    sheet, the workbook is saved, and the line of the report is
    printed. *)
Definition create_excel_report (results : list CheckResult)
    (filename : pystr) : IO pystr :=
  _ <~ (if existsb refused_row results
        then io_raise IllegalCharacterError
        else io_ret tt) ;;
  let ws := status_sheet results in
  stamp <~ now ;;
  let info_ws := info_sheet stamp results in
  _ <~ save [ws; info_ws] filename ;;
  _ <~ print (ReportSaved filename) ;;
  io_ret filename.

(** ** The main loop *)

(** [s.split('\n')] *)
Fixpoint split_lines (s : pystr) : list pystr :=
  match s with
  | [] => [[]]
  | c :: s' =>
      if Ascii.eqb c newline then [] :: split_lines s'
      else match split_lines s' with
           | line :: lines => (c :: line) :: lines
           | [] => [[c]]
           end
  end.

(** [[line.strip() for line in airlines.split('\n') if line.strip()]] *)
Definition airlines_list (airlines : pystr) : list pystr :=
  map strip
      (filter (fun line => truthy (Some (strip line))) (split_lines airlines)).

(** [str(n)] for a number that is not negative *)
Definition decimal (n : nat) : pystr :=
  str (NilEmpty.string_of_uint (Nat.to_uint n)).

(** [f'airline_status_report_temp_{idx}.xlsx'] *)
Definition temp_filename (idx : nat) : pystr :=
  str "airline_status_report_temp_" ++ decimal idx ++ str ".xlsx".

Definition final_filename : pystr := str "airline_status_report_final.xlsx".

(** [AirlineChecker()]: a new session with the User-Agent header. *)
Definition new_checker : IO unit :=
  fun env =>
    (Ok tt,
     {| world := {| session_headers := session_headers init_world;
                    stdout := stdout (world env) |};
        network := network env; sent := sent env; console := console env;
        clock := clock env; ticks := ticks env; writable := writable env;
        files := files env |}).

(** [time.sleep(0.1)]: time is not part of the environment. *)
Definition sleep : IO unit := io_ret tt.

(** The loop over [enumerate(airlines_list, 1)], with the results so
    far. *)
Fixpoint main_loop (total : nat) (todo : list (nat * pystr))
    (results : list CheckResult) : IO (list CheckResult) :=
  match todo with
  | [] => io_ret results
  | (idx, airline_name) :: rest =>
      _ <~ print (Progress idx total) ;;
      result <~ check_airline airline_name ;;
      let results := results ++ [result] in
      _ <~ sleep ;;
      _ <~ (if idx mod 100 =? 0
            then (_ <~ create_excel_report results (temp_filename idx) ;;
                  print (Intermediate idx))
            else io_ret tt) ;;
      main_loop total rest results
  end.

Definition is_no_information (r : CheckResult) : bool :=
  match result_status r with
  | NoInformation => true
  | Analysed _ => false
  end.

Definition has_confidence (c : Confidence) (r : CheckResult) : bool :=
  match c, result_confidence r with
  | High, High | Medium, Medium | Low, Low => true
  | _, _ => false
  end.

(** [sum(1 for r in results if p(r))] *)
Definition count (p : CheckResult -> bool) (results : list CheckResult)
  : nat :=
  length (filter p results).

(** [main()].  The list of airlines is a literal in the body of the
    source; it is a parameter here, and the properties of the script
    hold for every text of a list.  The script does not look into the
    names beyond splitting the text at line feeds and stripping white
    space. *)
Definition main (airlines : pystr) : IO unit :=
  let airlines_list := airlines_list airlines in
  _ <~ print (Total (length airlines_list)) ;;
  _ <~ print Rule ;;
  _ <~ new_checker ;;
  results <~ main_loop (length airlines_list) (enumerate airlines_list 1) [] ;;
  _ <~ create_excel_report results final_filename ;;
  _ <~ print Rule ;;
  _ <~ print StatisticsTitle ;;
  _ <~ print (Checked (length results)) ;;
  _ <~ print (InformationFound
                (count (fun r => negb (is_no_information r)) results)) ;;
  _ <~ print (InformationNotFound (count is_no_information results)) ;;
  _ <~ print (HighConfidence (count (has_confidence High) results)) ;;
  _ <~ print (MediumConfidence (count (has_confidence Medium) results)) ;;
  _ <~ print (LowConfidence (count (has_confidence Low) results)) ;;
  _ <~ print (FinalReport final_filename) ;;
  print Rule.

(** ** Notions used to state the properties of the script *)

(** All of the environment but the requests sent and the lines printed
    is the same. *)
Definition only_talks (env env' : Env) : Prop :=
  world env' = world env /\ network env' = network env /\
  clock env' = clock env /\ ticks env' = ticks env /\
  writable env' = writable env /\ files env' = files env.


(** A cell of the row of headers. *)
Definition header_cell (header : string) : Cell :=
  {| value := VLabel header; fill := Some header_fill;
     font := Some header_font;
     alignment := Some {| horizontal := Some "center"%string;
                          vertical := Some "center"%string;
                          wrap_text := Some true |} |}.

(** What the loop over the results makes of the cell [c] of column [col]
    in the row [idx] of [result]. *)
Definition row_cell (idx : nat) (result : CheckResult) (col : nat)
    (c : Cell) : Cell :=
  let wrap :=
    set_alignment {| horizontal := None; vertical := Some "center"%string;
                     wrap_text := Some true |} in
  match col with
  | 1 => wrap (set_value (VInt (idx - 1)) c)
  | 2 => wrap (set_value (VStr (airline result)) c)
  | 3 => wrap (set_value (VStatus (result_status result)) c)
  | 4 => wrap (set_value (VNewName (result_new_name result)) c)
  | 5 => wrap (set_fill (confidence_colors (result_confidence result))
                 (set_value (VConfidence (result_confidence result)) c))
  | 6 => wrap (set_value (VSource (source result)) c)
  | _ => c
  end.

(** The workbook of a report. *)
Definition report_of (stamp : pystr) (results : list CheckResult)
  : Workbook :=
  [status_sheet results; info_sheet stamp results].

(** The intermediate reports written at the indices [idxs], the first at
    the tick [tick] of the clock. *)
Fixpoint temp_reports (clock : nat -> pystr) (tick : nat) (idxs : list nat)
    (results : list CheckResult) : list (pystr * Workbook) :=
  match idxs with
  | [] => []
  | idx :: rest =>
      (temp_filename idx, report_of (clock tick) (firstn idx results))
      :: temp_reports clock (S tick) rest results
  end.

(** The multiples of 100 among [start], ..., [start + len - 1]. *)
Definition hundreds (start len : nat) : list nat :=
  filter (fun idx => idx mod 100 =? 0) (seq start len).

(** The line that a lookup prints: one for an error, none otherwise. *)
Definition error_lines (airline_name : pystr) (res : WikiResult)
  : list Line :=
  match res with
  | NotFound (Some e) => [WikipediaError airline_name e]
  | _ => []
  end.

(** The error of writing the report of [results] to [filename], if
    any: of a cell write first, of the save then. *)
Definition report_error (writable : pystr -> bool)
    (results : list CheckResult) (filename : pystr) : option error :=
  if existsb refused_row results then Some IllegalCharacterError
  else if writable filename then None
  else Some OSError.

(** The first error of the intermediate reports at the indices
    [idxs]. *)
Fixpoint temp_error (writable : pystr -> bool) (idxs : list nat)
    (results : list CheckResult) : option error :=
  match idxs with
  | [] => None
  | idx :: rest =>
      match report_error writable (firstn idx results) (temp_filename idx)
      with
      | Some e => Some e
      | None => temp_error writable rest results
      end
  end.

(** The first error of the reports of a run over [n] airlines with the
    rows [results]. *)
Definition main_error (writable : pystr -> bool) (n : nat)
    (results : list CheckResult) : option error :=
  match temp_error writable (hundreds 1 n) results with
  | Some e => Some e
  | None => report_error writable results final_filename
  end.

(** A row that the check of the airline returns in some environment. *)
Definition looked_up (airline_name : pystr) (r : CheckResult) : Prop :=
  exists env env', check_airline airline_name env = (Ok r, env').

End Script.

Arguments JNone {number}.
Arguments JBool {number} b.
Arguments JStr {number} s.
Arguments JList {number} items.
Arguments JDict {number} items.
Arguments NotFound {number} err.
Arguments NotAvailable {number}.
Arguments VNone {number}.
Arguments VInt {number} n.
Arguments VLabel {number} text.
Arguments VStr {number} s.
Arguments VStamp {number} s.
Arguments VConfidence {number} c.
Arguments VStatus {number} s.
Arguments VNewName {number} n.
Arguments Opensearch {number} search.
Arguments Fails {number} what.

(** ** Notions about the list of airlines *)

(** [chr(10).join(names)] *)
Fixpoint join_lines (names : list pystr) : pystr :=
  match names with
  | [] => []
  | [name] => name
  | name :: rest => name ++ newline :: join_lines rest
  end.

(** A name that is not empty, begins and ends with a character that is
    not white space, and has no line break. *)
Definition tidy (name : pystr) : bool :=
  match name with
  | [] => false
  | c :: _ =>
      negb (isspace c) && negb (isspace (last name c)) &&
      forallb (fun x => negb (Ascii.eqb x newline)) name
  end.

(** ** An example environment *)

(** A network that answers every opensearch with [search] and every
    request for an extract with [content]. *)
Definition example_network (search content : Json nat)
    (history : list (Request nat)) : Reply nat :=
  match last history (Opensearch []) with
  | Opensearch _ => Answers search
  | Extracts _ => Answers content
  end.

Definition example_env (search content : Json nat) : Env nat :=
  {| world := init_world;
     network := example_network search content;
     sent := []; console := [];
     clock := fun _ => str "2024-01-01 00:00:00"; ticks := 0;
     writable := fun _ => true; files := [] |}.

Definition example_page : list (pystr * Json nat) :=
  [(str "pageid", JNum 1234); (str "title", JStr (str "Pan Am"));
   (str "extract",
    JStr (str "Pan Am ceased operations in 1991 and was renamed to Pan Am II."))].

Definition example_content : Json nat :=
  JDict [(str "batchcomplete", JStr (str ""));
         (str "query",
          JDict [(str "pages", JDict [(str "1234", JDict example_page)])])].

Definition example_search (third : Json nat) : Json nat :=
  JList [JStr (str "Pan Am"); JList [JStr (str "Pan Am")]; third;
         JList [JStr (str "https://en.wikipedia.org/wiki/Pan_Am")]].

(** A text of two airlines on four lines. *)
Definition two_airlines : pystr :=
  str "  Pan Am " ++ newline :: newline :: str "Delta".

(** A row of a report. *)
Definition example_row : CheckResult nat :=
  {| airline := str "Pan Am";
     result_status := Analysed (Defunct (Some (str "1991")));
     result_new_name := None;
     result_confidence := High;
     source := Wikipedia (JStr (str "")) |}.

(** A text of a hundred lines. *)
Definition example_airlines : pystr :=
  concat (repeat (str "Pan Am" ++ [newline]) 100).


(* ================================================================= *)
(** * Facts about strings *)

Section StringFacts.

Implicit Types p s t : pystr.

Lemma startswith_app p t : startswith p (p ++ t) = true.
Proof.
  induction p as [|a p IH]; simpl; [reflexivity|].
  now rewrite Ascii.eqb_refl.
Qed.

Lemma startswith_inv p s :
  startswith p s = true -> s = p ++ skipn (length p) s.
Proof.
  revert s; induction p as [|a p IH]; intros [|b s]; simpl; try easy.
  intros H. apply andb_prop in H as [Hab Hp].
  apply Ascii.eqb_eq in Hab. subst b. f_equal. now apply IH.
Qed.

Lemma startswith_iff p s :
  startswith p s = true <-> exists t, s = p ++ t.
Proof.
  split.
  - intros H. eexists. now apply startswith_inv.
  - intros [t ->]. apply startswith_app.
Qed.

Lemma str_in_here p s : startswith p s = true -> str_in p s = true.
Proof. intros H. destruct s; cbn [str_in]; now rewrite H. Qed.

Lemma str_in_app a p t : str_in p (a ++ p ++ t) = true.
Proof.
  induction a as [|c a IH]; cbn [app].
  - apply str_in_here, startswith_app.
  - cbn [str_in]. rewrite IH. apply orb_true_r.
Qed.

Lemma str_in_inv p s :
  str_in p s = true -> exists a t, s = a ++ p ++ t.
Proof.
  induction s as [|c s IH].
  - cbn [str_in]. rewrite orb_false_r. intros H.
    exists [], (skipn (length p) []). now apply startswith_inv.
  - cbn [str_in]. intros H. apply orb_prop in H as [H|H].
    + exists [], (skipn (length p) (c :: s)). now apply startswith_inv.
    + destruct (IH H) as (a & t & ->). now exists (c :: a), t.
Qed.

(** [p in s] holds exactly when [s] can be cut around a copy of [p]. *)
Lemma str_in_iff p s :
  str_in p s = true <-> exists a t, s = a ++ p ++ t.
Proof.
  split; [apply str_in_inv|]. intros (a & t & ->). apply str_in_app.
Qed.

Lemma find_spec p s i :
  find p s = Some i ->
  i <= length s /\ startswith p (skipn i s) = true /\
  forall j, j < i -> startswith p (skipn j s) = false.
Proof.
  revert i; induction s as [|c s IH]; intros i; cbn [find].
  - destruct (startswith p []) eqn:E; [|discriminate].
    intros [= <-]. repeat split; auto. intros j Hj; lia.
  - destruct (startswith p (c :: s)) eqn:E.
    + intros [= <-]. repeat split; auto with arith. intros j Hj; lia.
    + destruct (find p s) as [i'|]; [|discriminate].
      intros [= <-]. destruct (IH i' eq_refl) as (Hle & Hst & Hno).
      repeat split; simpl; auto with arith.
      intros [|j] Hj; [exact E|]. apply Hno. lia.
Qed.

Lemma find_app a p t :
  exists i, find p (a ++ p ++ t) = Some i /\ i <= length a.
Proof.
  induction a as [|c a IH]; cbn [app find].
  - exists 0. split; [|auto].
    pose proof (startswith_app p t) as H.
    destruct (p ++ t); cbn [find]; now rewrite H.
  - destruct (startswith p (c :: a ++ p ++ t)).
    + exists 0. split; [reflexivity|simpl; lia].
    + destruct IH as (i & -> & Hi). exists (S i). split; [reflexivity|].
      simpl; lia.
Qed.

Lemma str_in_find p s :
  str_in p s = true -> exists i, find p s = Some i.
Proof.
  intros H. apply str_in_inv in H as (a & t & ->).
  destruct (find_app a p t) as (i & Hi & _). now exists i.
Qed.

Lemma lower_app s t : lower (s ++ t) = lower s ++ lower t.
Proof. apply map_app. Qed.

Lemma lower_skipn i s : lower (skipn i s) = skipn i (lower s).
Proof. unfold lower. symmetry. apply skipn_map. Qed.

Lemma lower_length s : length (lower s) = length s.
Proof. apply length_map. Qed.

Lemma slice_app a y t :
  slice (a ++ y ++ t) (length a) (length y + length a) = y.
Proof.
  unfold slice. rewrite skipn_app, skipn_all, Nat.sub_diag. simpl.
  replace (length y + length a - length a) with (length y + 0) by lia.
  now rewrite firstn_app_2, firstn_O, app_nil_r.
Qed.

Lemma slice_at a y t i j :
  i = length a -> j = length y + i -> slice (a ++ y ++ t) i j = y.
Proof. intros -> ->. apply slice_app. Qed.

End StringFacts.

(* ================================================================= *)
(** * Facts about the matcher *)

Lemma forallb_impl {A} (P Q : A -> bool) (l : list A) :
  (forall a, P a = true -> Q a = true) ->
  forallb P l = true -> forallb Q l = true.
Proof.
  intros HPQ. induction l as [|a l IH]; simpl; [easy|].
  intros H. apply andb_prop in H as [Ha Hl]. now rewrite (HPQ a Ha), IH.
Qed.

Lemma starts_cs p s : starts false p s = startswith p s.
Proof.
  revert s; induction p as [|x p IH]; intros [|c s]; simpl; try reflexivity.
  now rewrite IH.
Qed.

Lemma starts_ic p s : starts true p s = startswith (lower p) (lower s).
Proof.
  revert s; induction p as [|x p IH]; intros [|c s]; simpl; try reflexivity.
  now rewrite IH.
Qed.

Lemma starts_inv ic p s :
  starts ic p s = true ->
  s = firstn (length p) s ++ skipn (length p) s /\
  length (firstn (length p) s) = length p /\
  starts ic p (firstn (length p) s) = true.
Proof.
  revert s; induction p as [|x p IH]; intros [|c s]; simpl; try easy.
  intros H. apply andb_prop in H as [Hx Hp].
  destruct (IH s Hp) as (E & L & St).
  repeat split; [now rewrite <- E | now rewrite L | now rewrite Hx, St].
Qed.

Section MatcherFacts.

Variable R : Type.
Variable ic : bool.

Implicit Types (k : cont R) (s w t : pystr) (g : option span).

(** A literal either fails or hands the text behind it to the rest of
    the pattern. *)
Lemma rmatch_lits p s n g k :
  rmatch ic (lits p) s n g k =
  if starts ic p s then k (skipn (length p) s) (length p + n) g else None.
Proof.
  revert s n; induction p as [|x p IH]; intros s n; [reflexivity|].
  destruct s as [|c s]; [reflexivity|].
  cbn [lits rmatch atom_match starts length skipn].
  destruct (lit_match ic x c); [|reflexivity].
  rewrite IH. cbn [andb]. now rewrite Nat.add_succ_r.
Qed.

Lemma rep_greedy_inv a lo hi s n g k x :
  rep_greedy ic a lo hi s n g k = Some x ->
  exists w t,
    s = w ++ t /\ forallb (atom_match ic a) w = true /\
    lo <= length w /\ within hi (length w) /\
    k t (length w + n) g = Some x.
Proof.
  assert (Hstop : forall s n lo hi,
    match lo with 0 => k s n g | S _ => None end = Some x ->
    exists w t,
      s = w ++ t /\ forallb (atom_match ic a) w = true /\
      lo <= length w /\ within hi (length w) /\
      k t (length w + n) g = Some x).
  { intros s0 n0 [|lo0] hi0 H; [|discriminate].
    exists [], s0. repeat split; auto.
    destruct hi0; simpl; auto with arith. }
  revert lo hi n; induction s as [|c s IH]; intros lo hi n; cbn [rep_greedy].
  - apply Hstop.
  - destruct (room hi && atom_match ic a c) eqn:E; [|apply Hstop].
    destruct (rep_greedy ic a (pred lo) (dec hi) s (S n) g k) eqn:Er;
      [|apply Hstop].
    intros [= ->]. apply andb_prop in E as [Hroom Hc].
    destruct (IH _ _ _ Er) as (w & t & -> & Hw & Hlo & Hhi & Hk).
    exists (c :: w), t. cbn [app forallb length]. rewrite Hc, Hw.
    repeat split; auto; [lia| |now rewrite Nat.add_succ_r in Hk].
    destruct hi as [[|h]|]; simpl in *; try easy. lia.
Qed.

Lemma rep_lazy_inv a lo hi s n g k x :
  rep_lazy ic a lo hi s n g k = Some x ->
  exists w t,
    s = w ++ t /\ forallb (atom_match ic a) w = true /\
    lo <= length w /\ within hi (length w) /\
    k t (length w + n) g = Some x /\
    forall w1 w2, w = w1 ++ w2 -> w2 <> [] -> lo <= length w1 ->
                  k (w2 ++ t) (length w1 + n) g = None.
Proof.
  assert (Hmore : forall s n lo hi,
    (forall lo hi n,
       rep_lazy ic a lo hi (tl s) n g k = Some x ->
       exists w t,
         tl s = w ++ t /\ forallb (atom_match ic a) w = true /\
         lo <= length w /\ within hi (length w) /\
         k t (length w + n) g = Some x /\
         forall w1 w2, w = w1 ++ w2 -> w2 <> [] -> lo <= length w1 ->
                       k (w2 ++ t) (length w1 + n) g = None) ->
    (lo = 0 -> k s n g = None) ->
    match s with
    | c :: s' =>
        if room hi && atom_match ic a c
        then rep_lazy ic a (pred lo) (dec hi) s' (S n) g k
        else None
    | [] => None
    end = Some x ->
    exists w t,
      s = w ++ t /\ forallb (atom_match ic a) w = true /\
      lo <= length w /\ within hi (length w) /\
      k t (length w + n) g = Some x /\
      forall w1 w2, w = w1 ++ w2 -> w2 <> [] -> lo <= length w1 ->
                    k (w2 ++ t) (length w1 + n) g = None).
  { intros [|c s0] n0 lo0 hi0 IH Hk0 H; [discriminate|].
    destruct (room hi0 && atom_match ic a c) eqn:E; [|discriminate].
    apply andb_prop in E as [Hroom Hc].
    destruct (IH _ _ _ H) as (w & t & Es & Hw & Hlo & Hhi & Hk & Hmin).
    cbn [tl] in Es. subst s0.
    exists (c :: w), t. cbn [app forallb length]. rewrite Hc, Hw.
    repeat split; auto; [lia| |now rewrite Nat.add_succ_r in Hk|].
    - destruct hi0 as [[|h]|]; simpl in *; try easy. lia.
    - intros [|c1 w1] w2 Ew Hw2 Hl.
      + cbn [app] in Ew. subst w2. cbn [length Nat.add]. apply Hk0.
        simpl in Hl. lia.
      + cbn [app] in Ew. injection Ew as <- Ew.
        cbn [length].
        replace (S (length w1) + n0) with (length w1 + S n0) by lia.
        apply Hmin; auto. simpl in Hl. lia. }
  revert lo hi n; induction s as [|c s IH]; intros lo hi n H.
  - destruct lo as [|lo]; cbn [rep_lazy] in H; [|discriminate].
    destruct (k [] n g) eqn:Ek; [|discriminate]. injection H as ->.
    exists [], []. repeat split; auto.
    + destruct hi; simpl; auto with arith.
    + intros w1 w2 Ew. symmetry in Ew. apply app_eq_nil in Ew as [_ ->].
      easy.
  - destruct lo as [|lo]; cbn [rep_lazy] in H.
    + destruct (k (c :: s) n g) eqn:Ek.
      * injection H as ->. exists [], (c :: s). repeat split; auto.
        -- destruct hi; simpl; auto with arith.
        -- intros w1 w2 Ew. symmetry in Ew.
           apply app_eq_nil in Ew as [_ ->]. easy.
      * apply (Hmore (c :: s) n 0 hi); auto.
    + apply (Hmore (c :: s) n (S lo) hi); auto. discriminate.
Qed.

Lemma rep_greedy_opt a hi s n g k :
  k s n g <> None -> rep_greedy ic a 0 hi s n g k <> None.
Proof.
  intros Hk. destruct s as [|c s]; cbn [rep_greedy]; [exact Hk|].
  destruct (room hi && atom_match ic a c); [|exact Hk].
  destruct (rep_greedy ic a (pred 0) (dec hi) s (S n) g k); easy.
Qed.

Lemma rep_greedy_exact a w t n g k :
  forallb (atom_match ic a) w = true ->
  rep_greedy ic a (length w) (Some (length w)) (w ++ t) n g k =
  k t (length w + n) g.
Proof.
  revert n; induction w as [|c w IH]; intros n Hw.
  - destruct t; reflexivity.
  - cbn [forallb] in Hw. apply andb_prop in Hw as [Hc Hw].
    cbn [app length rep_greedy room dec option_map pred].
    rewrite Hc. cbn [andb]. rewrite (IH (S n) Hw), Nat.add_succ_r.
    cbn [Nat.add]. now destruct (k t (S (length w + n)) g).
Qed.

Lemma rep_lazy_complete a lo w t n g k :
  forallb (atom_match ic a) w = true ->
  lo <= length w ->
  k t (length w + n) g <> None ->
  rep_lazy ic a lo None (w ++ t) n g k <> None.
Proof.
  revert lo n; induction w as [|c w IH]; intros lo n Hw Hlo Hk.
  - assert (lo = 0) as -> by (simpl in Hlo; lia).
    cbn [app length Nat.add] in *.
    destruct t; cbn [rep_lazy]; now destruct (k _ n g).
  - cbn [forallb] in Hw. apply andb_prop in Hw as [Hc Hw].
    cbn [app length rep_lazy room dec option_map].
    rewrite Hc. cbn [andb].
    assert (Hrec : rep_lazy ic a (pred lo) None (w ++ t) (S n) g k <> None).
    { apply IH; auto; [simpl in Hlo; lia|].
      now rewrite Nat.add_succ_r. }
    destruct lo as [|lo]; [|exact Hrec].
    now destruct (k (c :: w ++ t) n g).
Qed.

Lemma rep_greedy_complete a lo w t n g k :
  forallb (atom_match ic a) w = true ->
  lo <= length w ->
  k t (length w + n) g <> None ->
  rep_greedy ic a lo None (w ++ t) n g k <> None.
Proof.
  revert lo n; induction w as [|c w IH]; intros lo n Hw Hlo Hk.
  - assert (lo = 0) as -> by (simpl in Hlo; lia).
    now apply rep_greedy_opt.
  - cbn [forallb] in Hw. apply andb_prop in Hw as [Hc Hw].
    cbn [app length rep_greedy room dec option_map].
    rewrite Hc. cbn [andb].
    assert (Hrec : rep_greedy ic a (pred lo) None (w ++ t) (S n) g k <> None).
    { apply IH; auto; [simpl in Hlo; lia|].
      now rewrite Nat.add_succ_r. }
    now destruct (rep_greedy ic a (pred lo) None (w ++ t) (S n) g k).
Qed.

End MatcherFacts.

(* ================================================================= *)
(** * Facts about [re.search] *)

Section SearchFacts.

Variable ic : bool.
Variable r : regex.

Lemma search_from_here s pos m :
  match_here ic r s pos = Some m -> search_from ic r s pos = Some m.
Proof. intros H. destruct s; cbn [search_from]; now rewrite H. Qed.

(** The match returned is the one of the leftmost position at which an
    attempt succeeds. *)
Lemma search_from_inv s pos m :
  search_from ic r s pos = Some m ->
  exists i,
    i <= length s /\ match_here ic r (skipn i s) (i + pos) = Some m /\
    forall j, j < i -> match_here ic r (skipn j s) (j + pos) = None.
Proof.
  revert pos; induction s as [|c s IH]; intros pos; cbn [search_from].
  - destruct (match_here ic r [] pos) eqn:E; [|discriminate].
    intros [= ->]. exists 0. repeat split; auto. intros j Hj; lia.
  - destruct (match_here ic r (c :: s) pos) eqn:E.
    + intros [= ->]. exists 0. repeat split; auto with arith.
      intros j Hj; lia.
    + intros H. destruct (IH _ H) as (i & Hi & Hm & Hno).
      exists (S i). cbn [skipn length].
      replace (S i + pos) with (i + S pos) by lia.
      repeat split; auto with arith.
      intros [|j] Hj; [exact E|].
      cbn [skipn]. replace (S j + pos) with (j + S pos) by lia.
      apply Hno. lia.
Qed.

Lemma search_from_skip s pos i :
  i <= length s ->
  (forall j, j < i -> match_here ic r (skipn j s) (j + pos) = None) ->
  search_from ic r s pos = search_from ic r (skipn i s) (i + pos).
Proof.
  revert s pos; induction i as [|i IH]; intros s pos Hi Hno; [reflexivity|].
  destruct s as [|c s]; [simpl in Hi; lia|].
  cbn [search_from skipn].
  pose proof (Hno 0 (Nat.lt_0_succ i)) as H0. cbn [skipn Nat.add] in H0.
  rewrite H0.
  replace (S i + pos) with (i + S pos) by lia.
  apply IH; [simpl in Hi; lia|].
  intros j Hj. replace (j + S pos) with (S j + pos) by lia.
  apply (Hno (S j)). lia.
Qed.

Lemma search_from_complete s pos i :
  i <= length s ->
  match_here ic r (skipn i s) (i + pos) <> None ->
  search_from ic r s pos <> None.
Proof.
  revert s pos; induction i as [|i IH]; intros s pos Hi Hm.
  - destruct (match_here ic r s pos) as [m|] eqn:E; [|easy].
    now rewrite (search_from_here _ _ E).
  - destruct s as [|c s]; [simpl in Hi; lia|].
    cbn [search_from].
    destruct (match_here ic r (c :: s) pos); [easy|].
    apply IH; [simpl in Hi; lia|].
    now replace (i + S pos) with (S i + pos) by lia.
Qed.

End SearchFacts.

(* ================================================================= *)
(** * The year pattern *)

Lemma ceased_here_fail s pos :
  startswith ceased_kw s = false ->
  match_here false ceased_date_pattern s pos = None.
Proof.
  intros H. unfold match_here, ceased_date_pattern. cbn [rmatch].
  rewrite rmatch_lits, starts_cs. fold ceased_kw. now rewrite H.
Qed.

(** An attempt that succeeds has read "ceased operation", then characters
    of the same line, then the four digits of group 1. *)
Lemma ceased_here_inv s pos m :
  match_here false ceased_date_pattern s pos = Some m ->
  exists b y t,
    s = ceased_kw ++ b ++ y ++ t /\ same_line b = true /\
    four_digits y /\ group1 m = Some y.
Proof.
  unfold match_here, ceased_date_pattern. cbn [rmatch].
  rewrite rmatch_lits, starts_cs. fold ceased_kw.
  destruct (startswith ceased_kw s) eqn:Est; [|discriminate].
  intros H.
  apply rep_greedy_inv in H as (w1 & t1 & E1 & Hw1 & _ & _ & H).
  apply rep_lazy_inv in H as (w2 & t2 & E2 & Hw2 & _ & _ & H & _).
  apply rep_greedy_inv in H as (w3 & t3 & E3 & Hw3 & Hlo & Hhi & H).
  injection H as <-. cbn [group1 option_map fst snd].
  apply startswith_inv in Est. rewrite E1, E2, E3 in Est.
  exists (w1 ++ w2), w3, t3. repeat split.
  - now rewrite <- app_assoc.
  - unfold same_line. rewrite forallb_app. apply andb_true_intro. split.
    + revert Hw1. apply forallb_impl. intros c Hc.
      cbn [atom_match lit_match] in Hc.
      apply Ascii.eqb_eq in Hc. now subst c.
    + exact Hw2.
  - simpl in Hhi. lia.
  - exact Hw3.
  - f_equal. rewrite Est at 1.
    replace (ceased_kw ++ w1 ++ w2 ++ w3 ++ t3)
      with ((ceased_kw ++ w1 ++ w2) ++ w3 ++ t3)
      by now rewrite <- !app_assoc.
    apply slice_at; rewrite ?length_app; change (length ceased_kw) with 16;
      lia.
Qed.

Lemma ceased_here_complete b y t pos :
  same_line b = true -> four_digits y ->
  match_here false ceased_date_pattern (ceased_kw ++ b ++ y ++ t) pos <> None.
Proof.
  intros Hb [Hlen Hy]. unfold match_here, ceased_date_pattern. cbn [rmatch].
  rewrite rmatch_lits, starts_cs. fold ceased_kw.
  rewrite startswith_app, skipn_app, skipn_all, Nat.sub_diag.
  cbn [app skipn].
  apply rep_greedy_opt. apply rep_lazy_complete; [exact Hb|lia|].
  rewrite <- Hlen, rep_greedy_exact by exact Hy. discriminate.
Qed.

(* ================================================================= *)
(** * The name pattern *)

Ltac each_char c := destruct c as [[] [] [] [] [] [] [] []].

Lemma letter_class c : atom_match true (Bracket [SRange "A" "Z"]) c = is_letter c.
Proof. each_char c; vm_compute; reflexivity. Qed.

Lemma name_class c : atom_match true name_char c = in_name c.
Proof. each_char c; vm_compute; reflexivity. Qed.

Lemma letter_not_space c : is_letter c = true -> isspace c = false.
Proof. each_char c; vm_compute; intros H; congruence. Qed.

Lemma starts_ic_eq p k' :
  starts true p k' = true -> length k' = length p -> lower k' = lower p.
Proof.
  rewrite starts_ic. intros H L. apply startswith_inv in H.
  assert (E : skipn (length (lower p)) (lower k') = []).
  { apply skipn_all2. rewrite !lower_length. lia. }
  rewrite E, app_nil_r in H. exact H.
Qed.

Section NameEnd.

Variable R : Type.

Implicit Types (k : cont R) (t : pystr) (g : option span).

Lemma rmatch_char x t n g k :
  rmatch true (Atom (Lit x)) t n g k =
  if starts true [x] t then k (skipn 1 t) (S n) g else None.
Proof.
  destruct t as [|c t]; cbn [rmatch starts atom_match skipn]; [reflexivity|].
  now rewrite andb_true_r.
Qed.

Lemma rmatch_spaced word t n g k :
  rmatch true
    (Seq (Atom (Cat CatSpace)) (Seq (lits word) (Atom (Cat CatSpace)))) t n g k =
  if spaced_word word t
  then k (skipn (2 + length word) t) (S (length word + S n)) g
  else None.
Proof.
  destruct t as [|c t]; cbn [rmatch spaced_word atom_match cat_match];
    [reflexivity|].
  destruct (isspace c); [|reflexivity].
  rewrite rmatch_lits. cbn [andb].
  destruct (starts true word t); [|reflexivity]. cbn [andb].
  replace (skipn (2 + length word) (c :: t))
    with (skipn 1 (skipn (length word) t)).
  - destruct (skipn (length word) t) as [|c' t']; [reflexivity|].
    cbn [skipn]. now destruct (isspace c').
  - rewrite skipn_skipn. reflexivity.
Qed.

Lemma or_else_some (a b : option R) x :
  match a with Some y => Some y | None => b end = Some x ->
  a = Some x \/ b = Some x.
Proof. destruct a; auto. Qed.

Lemma name_end_unfold t n g k :
  rmatch true name_end t n g k =
  match (if starts true (str ".") t then k (skipn 1 t) (S n) g else None) with
  | Some y => Some y
  | None =>
  match (if starts true (str ",") t then k (skipn 1 t) (S n) g else None) with
  | Some y => Some y
  | None =>
  match (if spaced_word (str "in") t
         then k (skipn 4 t) (S (2 + S n)) g else None) with
  | Some y => Some y
  | None =>
  match (if spaced_word (str "from") t
         then k (skipn 6 t) (S (4 + S n)) g else None) with
  | Some y => Some y
  | None => if at_end t then k t n g else None
  end end end end.
Proof.
  pose proof (rmatch_char "." t n g k) as E1.
  pose proof (rmatch_char "," t n g k) as E2.
  pose proof (rmatch_spaced (str "in") t n g k) as E3.
  pose proof (rmatch_spaced (str "from") t n g k) as E4.
  unfold name_end. cbn [rmatch] in *.
  now rewrite E1, E2, E3, E4.
Qed.

(** The end of a name is reached only at a boundary, and it leaves
    group 1 as it was. *)
Lemma name_end_inv t n g k x :
  rmatch true name_end t n g k = Some x ->
  is_boundary t = true /\ exists t' n', k t' n' g = Some x.
Proof.
  rewrite name_end_unfold. unfold is_boundary. intros H.
  repeat (apply or_else_some in H as [H|H]);
    match type of H with
    | (if ?c then _ else _) = _ =>
        destruct c eqn:E; [|discriminate];
        split; [now rewrite ?orb_true_r|eauto]
    end.
Qed.

(** With a rest of the pattern that cannot fail, the end of a name
    fails only where there is no boundary. *)
Lemma name_end_none t n g k :
  (forall t' n' g', k t' n' g' <> None) ->
  rmatch true name_end t n g k = None -> is_boundary t = false.
Proof.
  intros Hk. rewrite name_end_unfold. unfold is_boundary.
  pose proof (Hk (skipn 1 t) (S n) g) as K1.
  pose proof (Hk (skipn 4 t) (S (2 + S n)) g) as K3.
  pose proof (Hk (skipn 6 t) (S (4 + S n)) g) as K4.
  pose proof (Hk t n g) as K5.
  destruct (starts true (str ".") t);
    [destruct (k (skipn 1 t) (S n) g); [discriminate|easy]|].
  destruct (starts true (str ",") t);
    [destruct (k (skipn 1 t) (S n) g); [discriminate|easy]|].
  destruct (spaced_word (str "in") t);
    [destruct (k (skipn 4 t) (S (2 + S n)) g); [discriminate|easy]|].
  destruct (spaced_word (str "from") t);
    [destruct (k (skipn 6 t) (S (4 + S n)) g); [discriminate|easy]|].
  destruct (at_end t); [|reflexivity].
  destruct (k t n g); [discriminate|easy].
Qed.

End NameEnd.

Lemma lstrip_last u c :
  isspace c = false -> exists v, lstrip (u ++ [c]) = v ++ [c].
Proof.
  intros Hc. induction u as [|d u IH]; cbn [app lstrip].
  - rewrite Hc. now exists [].
  - destruct (isspace d); [exact IH|]. now exists (d :: u).
Qed.

(** Stripping keeps a first character that is not white space. *)
Lemma strip_head c w :
  isspace c = false -> exists w', strip (c :: w) = c :: w'.
Proof.
  intros Hc. unfold strip, rstrip. cbn [lstrip]. rewrite Hc. cbn [rev].
  destruct (lstrip_last (rev w) c Hc) as (v & ->).
  rewrite rev_app_distr. cbn [rev app]. now exists (rev v).
Qed.

(** An attempt of the name pattern that succeeds has read the keyword in
    some letter case, white space, and a name that group 1 holds; the
    name stops at the first boundary behind its second character. *)
Lemma name_here_inv keyword s pos m :
  match_here true (name_pattern keyword) s pos = Some m ->
  exists k' ws c w t,
    s = k' ++ ws ++ (c :: w) ++ t /\
    lower k' = lower keyword /\
    ws <> [] /\ forallb isspace ws = true /\
    is_letter c = true /\
    w <> [] /\ forallb in_name w = true /\
    is_boundary t = true /\
    (forall w1 w2, w = w1 ++ w2 -> w1 <> [] -> w2 <> [] ->
                   is_boundary (w2 ++ t) = false) /\
    group1 m = Some (c :: w).
Proof.
  unfold match_here, name_pattern. cbn [rmatch].
  rewrite rmatch_lits.
  destruct (starts true keyword s) eqn:Est; [|discriminate].
  apply starts_inv in Est as (Es & Lk & Sk).
  pose proof (starts_ic_eq _ _ Sk Lk) as Ek.
  set (k' := firstn (length keyword) s) in *.
  intros H.
  apply rep_greedy_inv in H as (ws & t1 & E1 & Hws & Hlo & _ & H).
  destruct t1 as [|c t1]; [discriminate|].
  rewrite letter_class in H.
  destruct (is_letter c) eqn:Hc; [|discriminate].
  apply rep_lazy_inv in H as (w & t & E2 & Hw & Hlw & _ & H & Hmin).
  apply name_end_inv in H as (Hb & t' & n' & H).
  injection H as <-. cbn [group1 option_map fst snd].
  assert (E : s = k' ++ ws ++ (c :: w) ++ t).
  { rewrite Es at 1. now rewrite E1, E2. }
  exists k', ws, c, w, t. repeat split; auto.
  - intros ->. simpl in Hlo. lia.
  - intros ->. simpl in Hlw. lia.
  - revert Hw. apply forallb_impl. intros a. now rewrite name_class.
  - intros w1 w2 Ew Hw1 Hw2.
    eapply name_end_none; [|apply (Hmin w1 w2 Ew Hw2)].
    + discriminate.
    + destruct w1; [easy|simpl; lia].
  - f_equal. rewrite E at 1.
    replace (k' ++ ws ++ (c :: w) ++ t) with ((k' ++ ws) ++ (c :: w) ++ t)
      by now rewrite <- app_assoc.
    apply slice_at; rewrite ?length_app; cbn [length]; lia.
Qed.

Lemma name_here_fail keyword s pos :
  startswith (lower keyword) (lower s) = false ->
  match_here true (name_pattern keyword) s pos = None.
Proof.
  intros H. unfold match_here, name_pattern. cbn [rmatch].
  now rewrite rmatch_lits, starts_ic, H.
Qed.

(** What a search for the name pattern finds. *)
Lemma name_search_inv keyword text m :
  search true (name_pattern keyword) text = Some m ->
  exists g, group1 m = Some g /\ strip g <> [] /\
            successor_of keyword text (strip g).
Proof.
  intros H. apply search_from_inv in H as (i & Hi & H & _).
  apply name_here_inv in H
    as (k' & ws & c & w & t & E & Ek & Hws & Sws & Hc & Hw & Nw & Hb & Hmin & G).
  exists (c :: w). split; [exact G|]. split.
  - destruct (strip_head c w (letter_not_space c Hc)) as (w' & ->). discriminate.
  - exists (firstn i text), k', ws, c, w, t. repeat split; auto.
    rewrite <- E. symmetry. apply firstn_skipn.
Qed.

(* ================================================================= *)
(** * The checker returns *)

Lemma new_name_loop_first keyword rest text w m g :
  search true (name_pattern keyword) text = Some m ->
  group1 m = Some g ->
  new_name_loop (keyword :: rest) text w = (Returns (Some (strip g)), w).
Proof.
  intros Hm Hg. cbn [new_name_loop]. rewrite Hm, Hg. reflexivity.
Qed.

(** The loop over the keywords never raises and leaves the world alone;
    a name it returns is not empty and follows one of the keywords. *)
Lemma new_name_loop_spec keywords text w :
  exists o,
    new_name_loop keywords text w = (Returns o, w) /\
    match o with
    | Some n =>
        n <> [] /\ exists keyword, In keyword keywords /\
                                   successor_of keyword text n
    | None =>
        forall keyword, In keyword keywords ->
                        search true (name_pattern keyword) text = None
    end.
Proof.
  induction keywords as [|keyword rest IH].
  - exists None. split; [reflexivity|]. intros keyword [].
  - destruct (search true (name_pattern keyword) text) as [m|] eqn:Hm.
    + destruct (name_search_inv _ _ Hm) as (g & Hg & Hne & Hsucc).
      exists (Some (strip g)). split.
      * now apply new_name_loop_first with (m := m).
      * split; [exact Hne|]. exists keyword. split; [now left|exact Hsucc].
    + destruct IH as (o & Hrun & Ho). exists o. split.
      * cbn [new_name_loop]. now rewrite Hm.
      * destruct o as [n|].
        -- destruct Ho as (Hne & kw & Hin & Hs).
           split; [exact Hne|]. exists kw. split; [now right|exact Hs].
        -- intros kw [<-|Hin]; [exact Hm|now apply Ho].
Qed.

Lemma ceased_match_inv text_lower m :
  ceased_match text_lower = Some m ->
  exists a b y t,
    text_lower = a ++ ceased_kw ++ b ++ y ++ t /\ same_line b = true /\
    four_digits y /\ group1 m = Some y.
Proof.
  intros H. apply search_from_inv in H as (i & Hi & H & _).
  apply ceased_here_inv in H as (b & y & t & E & Hb & Hy & G).
  exists (firstn i text_lower), b, y, t. repeat split; auto; try apply Hy.
  rewrite <- E. symmetry. apply firstn_skipn.
Qed.

(** The year, when there is one, is four digits that follow
    "ceased operation" on the same line. *)
Lemma ceased_year_sound text_lower y :
  find_ceased_year text_lower = Some y ->
  exists a b t,
    text_lower = a ++ ceased_kw ++ b ++ y ++ t /\ same_line b = true /\
    four_digits y.
Proof.
  unfold find_ceased_year.
  destruct (ceased_match text_lower) as [m|] eqn:Hm; [|discriminate].
  apply ceased_match_inv in Hm as (a & b & y' & t & E & Hb & Hy & G).
  rewrite G. intros [= <-]. now exists a, b, t.
Qed.

(** There is a year as soon as four digits follow "ceased operation" on
    the same line. *)
Lemma ceased_year_complete a b y t :
  same_line b = true -> four_digits y ->
  find_ceased_year (a ++ ceased_kw ++ b ++ y ++ t) <> None.
Proof.
  intros Hb Hy. unfold find_ceased_year.
  destruct (ceased_match (a ++ ceased_kw ++ b ++ y ++ t)) as [m|] eqn:Hm.
  - apply ceased_match_inv in Hm as (_ & _ & y' & _ & _ & _ & _ & G).
    now rewrite G.
  - exfalso. revert Hm. unfold ceased_match, search.
    apply search_from_complete with (i := length a).
    + rewrite length_app. lia.
    + rewrite skipn_app, skipn_all, Nat.sub_diag. cbn [app skipn].
      now apply ceased_here_complete.
Qed.

Lemma ceased_year_truthy text_lower :
  truthy (find_ceased_year text_lower) = is_some (find_ceased_year text_lower).
Proof.
  destruct (find_ceased_year text_lower) as [y|] eqn:E; [|reflexivity].
  apply ceased_year_sound in E as (_ & _ & _ & _ & _ & L & _).
  now destruct y.
Qed.

(** The run of [analyze_status], step by step: it returns, it leaves the
    world as it found it, and the four fields are as follows. *)
Lemma analyze_status_run text airline_name w :
  let text_lower := lower text in
  exists o,
    (if is_renamed text_lower
     then new_name_loop renamed_keywords text
     else ret None) w = (Returns o, w) /\
    (forall n, o = Some n -> n <> []) /\
    analyze_status text airline_name w =
    (Returns
       {| status :=
            if is_defunct text_lower
            then Defunct (find_ceased_year text_lower)
            else if is_operating text_lower then Operating
            else if is_renamed text_lower && is_some o then Renamed
            else Unknown;
          new_name := o;
          confidence :=
            if is_defunct text_lower && is_some (find_ceased_year text_lower)
            then High
            else if is_operating text_lower
                    && str_in (str "currently") text_lower then High
            else if is_defunct text_lower || is_operating text_lower
            then Medium
            else Low;
          ceased_year := find_ceased_year text_lower |}, w).
Proof.
  intros text_lower.
  assert (Hloop : exists o,
    (if is_renamed text_lower
     then new_name_loop renamed_keywords text
     else ret None) w = (Returns o, w) /\ (forall n, o = Some n -> n <> [])).
  { destruct (is_renamed text_lower).
    - destruct (new_name_loop_spec renamed_keywords text w) as (o & Hrun & Ho).
      exists o. split; [exact Hrun|]. intros n ->. apply Ho.
    - exists None. split; [reflexivity|]. discriminate. }
  destruct Hloop as (o & Hrun & Ho). exists o.
  split; [exact Hrun|]. split; [exact Ho|].
  unfold analyze_status, bind. fold text_lower. rewrite Hrun.
  unfold ret. rewrite ceased_year_truthy.
  assert (To : truthy o = is_some o).
  { destruct o as [[|c n]|]; try reflexivity. now destruct (Ho [] eq_refl). }
  rewrite To.
  destruct (find_ceased_year text_lower), o; reflexivity.
Qed.

(* ================================================================= *)
(** * The two example phrases *)

Lemma ceased_here_1998 t pos :
  match_here false ceased_date_pattern (phrase_1998 ++ t) pos =
  Some {| m_start := pos; m_end := pos + 25; group1 := Some (str "1998") |}.
Proof. destruct t; reflexivity. Qed.

Lemma name_here_delta t pos :
  match_here true (name_pattern (str "renamed to"))
             (str "renamed to Delta Airlines." ++ t) pos =
  Some {| m_start := pos; m_end := pos + 26;
          group1 := Some (str "Delta Airlines") |}.
Proof. reflexivity. Qed.

(** The loop's result does not depend on the world it runs in. *)
Lemma new_name_loop_world keywords text w w' :
  fst (new_name_loop keywords text w) = fst (new_name_loop keywords text w').
Proof.
  induction keywords as [|keyword rest IH]; cbn [new_name_loop];
    [reflexivity|].
  destruct (search true (name_pattern keyword) text) as [m|]; [|exact IH].
  now destruct (group1 m).
Qed.

(* ================================================================= *)
(** * Properties of the classifier *)

(** C3: for the empty source text the result is status Unknown,
    confidence Low and no successor name (and no year), whatever the
    airline name and the world of the call. *)
Theorem C3_empty_text airline_name w :
  analyze_status (str "") airline_name w =
  (Returns {| status := Unknown; new_name := None;
              confidence := Low; ceased_year := None |}, w).
Proof. reflexivity. Qed.

(** C9: the result does not depend on the airline name: two calls on
    the same text with any two names return the same status, successor
    name, confidence and year. *)
Theorem C9_airline_name_unused text name1 name2 w :
  analyze_status text name1 w = analyze_status text name2 w.
Proof. reflexivity. Qed.

(** C7: for every text and airline name the call returns a result and
    raises nothing; when no defunct, operating or renamed keyword occurs
    in the lowercased text the result is status Unknown with confidence
    Low. *)
Theorem C7_never_fails text airline_name w :
  exists r,
    analyze_status text airline_name w = (Returns r, w) /\
    (is_defunct (lower text) = false ->
     is_operating (lower text) = false ->
     is_renamed (lower text) = false ->
     status r = Unknown /\ confidence r = Low).
Proof.
  destruct (analyze_status_run text airline_name w) as (o & _ & _ & E).
  eexists. split; [exact E|].
  intros Hd Ho Hr. cbn [status confidence]. now rewrite Hd, Ho, Hr.
Qed.

Lemma C7_never_fails_witness :
  exists r,
    analyze_status (str "A small regional carrier.") (str "Test Air")
                   init_world = (Returns r, init_world) /\
    status r = Unknown /\ confidence r = Low.
Proof.
  destruct (C7_never_fails (str "A small regional carrier.") (str "Test Air")
                           init_world) as (r & Hr & H).
  exists r. split; [exact Hr|]. apply H; reflexivity.
Defined.

(** A keyword set matches, as the code computes it, exactly when one of
    its keywords is a substring of the lowercased text. *)
Lemma mentions_iff keywords text :
  mentions keywords text <-> any_in keywords (lower text) = true.
Proof.
  unfold mentions, occurs, any_in. rewrite existsb_exists. split.
  - intros (keyword & Hin & H). exists keyword. split; [exact Hin|].
    now apply str_in_iff.
  - intros (keyword & Hin & H). exists keyword. split; [exact Hin|].
    now apply str_in_iff.
Qed.

Lemma not_mentions keywords text :
  ~ mentions keywords text -> any_in keywords (lower text) = false.
Proof.
  intros H. destruct (any_in keywords (lower text)) eqn:E; [|reflexivity].
  exfalso. apply H. now apply mentions_iff.
Qed.

(** C2: the status follows the priority order: Defunct as soon as a
    defunct keyword is a substring of the lowercased text, whatever else
    occurs; otherwise Operating when an operating keyword is one;
    otherwise Renamed when a renamed keyword is one and a successor name
    was extracted; otherwise Unknown. *)
Theorem C2_status_priority text airline_name w :
  exists r,
    analyze_status text airline_name w = (Returns r, w) /\
    (mentions defunct_keywords text ->
     status r = Defunct (ceased_year r)) /\
    (~ mentions defunct_keywords text ->
     mentions operating_keywords text ->
     status r = Operating) /\
    (~ mentions defunct_keywords text ->
     ~ mentions operating_keywords text ->
     mentions renamed_keywords text -> new_name r <> None ->
     status r = Renamed) /\
    (~ mentions defunct_keywords text ->
     ~ mentions operating_keywords text ->
     ~ mentions renamed_keywords text \/ new_name r = None ->
     status r = Unknown).
Proof.
  destruct (analyze_status_run text airline_name w) as (o & _ & _ & E).
  eexists. split; [exact E|]. cbn [status new_name ceased_year].
  unfold is_defunct, is_operating, is_renamed.
  split; [|split; [|split]].
  - intros Hd. apply mentions_iff in Hd. now rewrite Hd.
  - intros Hd Ho. apply not_mentions in Hd. apply mentions_iff in Ho.
    now rewrite Hd, Ho.
  - intros Hd Ho Hr Hn. apply not_mentions in Hd, Ho.
    apply mentions_iff in Hr. rewrite Hd, Ho, Hr.
    destruct o; [reflexivity|]. now contradiction Hn.
  - intros Hd Ho H. apply not_mentions in Hd, Ho. rewrite Hd, Ho.
    destruct H as [Hr| ->].
    + apply not_mentions in Hr. now rewrite Hr.
    + now rewrite andb_false_r.
Qed.

Lemma C2_status_priority_witness :
  exists r,
    analyze_status (str "Defunct since 2001; it was operating flights and became Foo.")
                   (str "Test Air") init_world = (Returns r, init_world) /\
    status r = Defunct (ceased_year r).
Proof.
  destruct (C2_status_priority
              (str "Defunct since 2001; it was operating flights and became Foo.")
              (str "Test Air") init_world) as (r & Hr & Hd & _).
  exists r. split; [exact Hr|]. apply Hd.
  exists (str "defunct"). split; [right; now left|].
  exists [], (str " since 2001; it was operating flights and became foo.").
  reflexivity.
Defined.

(** C1, at the text "defunct operating": a defunct keyword and an
    operating keyword are both substrings of the lowercased text, no
    year is extracted and "currently" does not occur, so that not
    exactly one of the two keyword sets matched; the confidence returned
    is Medium, not Low, for every airline name and world. *)
Theorem C1_contradictory_medium airline_name w :
  let text := str "defunct operating" in
  mentions defunct_keywords text /\
  mentions operating_keywords text /\
  ~ occurs (str "currently") (lower text) /\
  exists r,
    analyze_status text airline_name w = (Returns r, w) /\
    ceased_year r = None /\
    confidence r = Medium /\ confidence r <> Low.
Proof.
  split; [|split; [|split]].
  - exists (str "defunct"). split; [right; now left|].
    now exists [], (str " operating").
  - exists (str "operating"). split; [right; now left|].
    now exists (str "defunct "), [].
  - intros H. apply str_in_iff in H. discriminate.
  - eexists. split; [reflexivity|]. split; [reflexivity|].
    split; [reflexivity|discriminate].
Qed.

Lemma any_in_intro keyword keywords text :
  In keyword keywords -> str_in keyword text = true ->
  any_in keywords text = true.
Proof.
  intros Hin Hs. unfold any_in. apply existsb_exists. now exists keyword.
Qed.

(** When "ceased operation" first occurs where the phrase
    "ceased operations in 1998" first occurs, the year is 1998. *)
Lemma ceased_year_1998 text :
  str_in phrase_1998 text = true ->
  find ceased_kw (lower text) = find phrase_1998 text ->
  find_ceased_year (lower text) = Some (str "1998").
Proof.
  intros Hin Hf.
  destruct (str_in_find _ _ Hin) as (i & Hi). rewrite Hi in Hf.
  apply find_spec in Hi as (Hle & Hst & _).
  apply find_spec in Hf as (_ & _ & Hno).
  apply startswith_inv in Hst.
  unfold find_ceased_year, ceased_match, search.
  rewrite (search_from_skip false ceased_date_pattern (lower text) 0 (i := i)).
  - rewrite <- lower_skipn, Hst, lower_app.
    change (lower phrase_1998) with phrase_1998.
    now rewrite (search_from_here _ _ _ _ (ceased_here_1998 _ _)).
  - now rewrite lower_length.
  - intros j Hj. apply ceased_here_fail. now apply Hno.
Qed.

(** C4, as the code has it: for every text that contains
    "ceased operations in 1998" the status is Defunct, the confidence is
    High and the year is four digits, the same in the status and in the
    year field; the year is "1998" when the first "ceased operation" of
    the lowercased text is the one that begins the first
    "ceased operations in 1998". *)
Theorem C4_ceased_1998 text airline_name w :
  str_in phrase_1998 text = true ->
  exists r y,
    analyze_status text airline_name w = (Returns r, w) /\
    status r = Defunct (Some y) /\
    ceased_year r = Some y /\
    confidence r = High /\
    four_digits y /\
    (find ceased_kw (lower text) = find phrase_1998 text -> y = str "1998").
Proof.
  intros Hin.
  destruct (str_in_inv _ _ Hin) as (a & t & Et).
  assert (El : lower text =
               lower a ++ ceased_kw ++ str "s in " ++ str "1998" ++ lower t).
  { rewrite Et, !lower_app. reflexivity. }
  assert (Hd : is_defunct (lower text) = true).
  { apply any_in_intro with (keyword := str "ceased operations").
    - now left.
    - apply str_in_iff. exists (lower a), (str " in 1998" ++ lower t).
      rewrite El. reflexivity. }
  destruct (find_ceased_year (lower text)) as [y|] eqn:Ey.
  2:{ exfalso. revert Ey. rewrite El.
      apply ceased_year_complete; [reflexivity|]. split; reflexivity. }
  destruct (analyze_status_run text airline_name w) as (o & _ & _ & E).
  rewrite Hd, Ey in E. cbn [andb is_some] in E.
  eexists. exists y. split; [exact E|]. cbn [status ceased_year confidence].
  repeat split; try apply (ceased_year_sound _ Ey).
  - destruct (ceased_year_sound _ Ey) as (_ & _ & _ & _ & _ & L & _).
    exact L.
  - destruct (ceased_year_sound _ Ey) as (_ & _ & _ & _ & _ & _ & D).
    exact D.
  - intros Hf. pose proof (ceased_year_1998 _ Hin Hf) as H.
    rewrite Ey in H. now injection H.
Qed.

Lemma C4_ceased_1998_witness :
  exists r,
    analyze_status (str "The airline ceased operations in 1998.")
                   (str "Test Air") init_world = (Returns r, init_world) /\
    status r = Defunct (Some (str "1998")) /\
    ceased_year r = Some (str "1998") /\
    confidence r = High.
Proof.
  destruct (C4_ceased_1998 (str "The airline ceased operations in 1998.")
                           (str "Test Air") init_world eq_refl)
    as (r & y & Hr & Hs & Hy & Hc & _ & H).
  exists r. rewrite (H eq_refl) in Hs, Hy. now repeat split.
Defined.

(** C4 as stated fails: a text can contain "ceased operations in 1998"
    and have another year. *)
Lemma C4_counterexample :
  let text := str "It ceased operations 2001. ceased operations in 1998" in
  str_in phrase_1998 text = true /\
  exists r,
    analyze_status text (str "Test Air") init_world = (Returns r, init_world) /\
    ceased_year r = Some (str "2001") /\
    ceased_year r <> Some (str "1998").
Proof.
  split; [reflexivity|].
  eexists. split; [reflexivity|]. split; [reflexivity|discriminate].
Qed.

Lemma skipn_behind (a s : pystr) n : skipn (n + length a) (a ++ s) = skipn n s.
Proof.
  rewrite <- skipn_skipn, skipn_app, skipn_all, Nat.sub_diag. reflexivity.
Qed.

(** A text with the phrase "was renamed to Delta Airlines." has a match
    of the first keyword's pattern. *)
Lemma name_search_delta text :
  str_in phrase_delta text = true ->
  exists m, search true (name_pattern (str "renamed to")) text = Some m.
Proof.
  intros Hin. apply str_in_inv in Hin as (a & t & ->).
  destruct (search true (name_pattern (str "renamed to"))
                   (a ++ phrase_delta ++ t)) as [m|] eqn:E; [now exists m|].
  exfalso. revert E. unfold search.
  apply search_from_complete with (i := 4 + length a).
  - rewrite !length_app. change (length phrase_delta) with 30. lia.
  - rewrite skipn_behind.
    change (skipn 4 (phrase_delta ++ t))
      with (str "renamed to Delta Airlines." ++ t).
    now rewrite name_here_delta.
Qed.

(** When "renamed to" first occurs, in any letter case, inside the first
    "was renamed to Delta Airlines.", the match is the one of that
    place. *)
Lemma name_search_delta_first text :
  str_in phrase_delta text = true ->
  find (str "renamed to") (lower text) =
    option_map (Nat.add 4) (find phrase_delta text) ->
  exists m, search true (name_pattern (str "renamed to")) text = Some m /\
            group1 m = Some (str "Delta Airlines").
Proof.
  intros Hin Hf.
  destruct (str_in_find _ _ Hin) as (i & Hi). rewrite Hi in Hf.
  cbn [option_map] in Hf.
  apply find_spec in Hi as (Hle & Hst & _).
  apply find_spec in Hf as (Hle4 & _ & Hno).
  apply startswith_inv in Hst.
  exists {| m_start := 4 + i + 0; m_end := 4 + i + 0 + 26;
            group1 := Some (str "Delta Airlines") |}.
  split; [|reflexivity]. unfold search.
  rewrite (search_from_skip true (name_pattern (str "renamed to")) text 0
                            (i := 4 + i)).
  - rewrite <- skipn_skipn, Hst.
    change (skipn 4 (phrase_delta ++ skipn (length phrase_delta) (skipn i text)))
      with (str "renamed to Delta Airlines."
            ++ skipn (length phrase_delta) (skipn i text)).
    apply search_from_here, name_here_delta.
  - now rewrite lower_length in Hle4.
  - intros j Hj. apply name_here_fail. rewrite lower_skipn. now apply Hno.
Qed.

(** C5, as the code has it: for every text that contains
    "was renamed to Delta Airlines." and no defunct or operating keyword
    the status is Renamed with a successor name that is not empty and
    follows "renamed to"; the name is "Delta Airlines" when the first
    "renamed to" of the text, in any letter case, is the one of the
    first "was renamed to Delta Airlines.". *)
Theorem C5_renamed_delta text airline_name w :
  str_in phrase_delta text = true ->
  is_defunct (lower text) = false ->
  is_operating (lower text) = false ->
  exists r n,
    analyze_status text airline_name w = (Returns r, w) /\
    status r = Renamed /\
    new_name r = Some n /\
    n <> [] /\
    successor_of (str "renamed to") text n /\
    (find (str "renamed to") (lower text) =
       option_map (Nat.add 4) (find phrase_delta text) ->
     n = str "Delta Airlines" /\ str_in (str "Delta Airlines") n = true).
Proof.
  intros Hin Hd Ho.
  assert (Hr : is_renamed (lower text) = true).
  { apply any_in_intro with (keyword := str "renamed to"); [now left|].
    destruct (str_in_inv _ _ Hin) as (a & t & ->).
    apply str_in_iff.
    exists (lower a ++ str "was "), (str " delta airlines." ++ lower t).
    rewrite !lower_app, <- app_assoc. reflexivity. }
  destruct (name_search_delta _ Hin) as (m & Hm).
  destruct (name_search_inv _ _ Hm) as (g & Hg & Hne & Hsucc).
  destruct (analyze_status_run text airline_name w) as (o & Hrun & _ & E).
  rewrite Hr in Hrun.
  change renamed_keywords
    with (str "renamed to" :: List.tl renamed_keywords) in Hrun.
  rewrite (@new_name_loop_first _ _ _ w _ _ Hm Hg) in Hrun.
  injection Hrun as <-.
  rewrite Hd, Ho, Hr in E. cbn [andb orb is_some] in E.
  eexists. exists (strip g). split; [exact E|]. cbn [status new_name].
  repeat split; auto.
  - destruct (name_search_delta_first _ Hin H) as (m' & Hm' & Hg').
    rewrite Hm in Hm'. injection Hm' as <-. rewrite Hg in Hg'.
    now injection Hg' as ->.
  - destruct (name_search_delta_first _ Hin H) as (m' & Hm' & Hg').
    rewrite Hm in Hm'. injection Hm' as <-. rewrite Hg in Hg'.
    now injection Hg' as ->.
Qed.

Lemma C5_renamed_delta_witness :
  exists r,
    analyze_status (str "In 1930 it was renamed to Delta Airlines. It grew.")
                   (str "Test Air") init_world = (Returns r, init_world) /\
    status r = Renamed /\
    new_name r = Some (str "Delta Airlines").
Proof.
  destruct (C5_renamed_delta
              (str "In 1930 it was renamed to Delta Airlines. It grew.")
              (str "Test Air") init_world eq_refl eq_refl eq_refl)
    as (r & n & Hr & Hs & Hn & _ & _ & H).
  exists r. destruct (H eq_refl) as [-> _]. now repeat split.
Defined.

(** C5 as stated fails: a text can contain
    "was renamed to Delta Airlines.", no defunct and no operating
    keyword, and have a successor name without "Delta Airlines". *)
Lemma C5_counterexample :
  let text := str "It was renamed to Foo, then was renamed to Delta Airlines." in
  str_in phrase_delta text = true /\
  is_defunct (lower text) = false /\
  is_operating (lower text) = false /\
  exists r,
    analyze_status text (str "Test Air") init_world = (Returns r, init_world) /\
    new_name r = Some (str "Foo") /\
    str_in (str "Delta Airlines") (str "Foo") = false.
Proof.
  repeat split; try reflexivity.
  eexists. split; [reflexivity|]. split; reflexivity.
Qed.

(* ================================================================= *)
(** * When a name is found *)

Lemma name_end_complete R t n g (k : cont R) :
  (forall t' n' g', k t' n' g' <> None) ->
  is_boundary t = true -> rmatch true name_end t n g k <> None.
Proof.
  intros Hk Hb H. apply name_end_none in H; [congruence|exact Hk].
Qed.

Lemma name_here_complete keyword k' ws c w t pos :
  lower k' = lower keyword ->
  ws <> [] -> forallb isspace ws = true ->
  is_letter c = true ->
  w <> [] -> forallb in_name w = true ->
  is_boundary t = true ->
  match_here true (name_pattern keyword) (k' ++ ws ++ (c :: w) ++ t) pos
  <> None.
Proof.
  intros Ek Hws Sws Hc Hw Nw Hb.
  assert (Lk : length keyword = length k').
  { rewrite <- (lower_length keyword), <- Ek. apply lower_length. }
  unfold match_here, name_pattern. cbn [rmatch].
  rewrite rmatch_lits, starts_ic, lower_app, Ek, startswith_app.
  rewrite Lk, skipn_app, skipn_all, Nat.sub_diag. cbn [app skipn].
  apply rep_greedy_complete; [exact Sws|destruct ws; [easy|simpl; lia]|].
  cbn [app]. rewrite letter_class, Hc.
  apply rep_lazy_complete.
  - revert Nw. apply forallb_impl. intros a. now rewrite name_class.
  - destruct w; [easy|simpl; lia].
  - apply name_end_complete; [discriminate|exact Hb].
Qed.

Lemma name_follows_search keyword text :
  name_follows keyword text ->
  search true (name_pattern keyword) text <> None.
Proof.
  intros (a & k' & ws & c & w & t & -> & Ek & Hws & Sws & Hc & Hw & Nw & Hb).
  unfold search. apply search_from_complete with (i := length a).
  - rewrite length_app. lia.
  - rewrite skipn_app, skipn_all, Nat.sub_diag. cbn [app skipn].
    now apply name_here_complete.
Qed.

Lemma name_follows_in keyword text :
  name_follows keyword text -> str_in (lower keyword) (lower text) = true.
Proof.
  intros (a & k' & ws & c & w & t & -> & Ek & _).
  rewrite !lower_app, Ek. apply str_in_app.
Qed.

Lemma renamed_keywords_lower keyword :
  In keyword renamed_keywords -> lower keyword = keyword.
Proof.
  intros H. repeat (destruct H as [<-|H]; [reflexivity|]). destruct H.
Qed.

Lemma successor_follows keyword text n :
  successor_of keyword text n -> name_follows keyword text.
Proof.
  intros (a & k' & ws & c & w & t & H).
  exists a, k', ws, c, w, t. tauto.
Qed.

(** C6, at the text "it was renamed to delta airlines.", a lowercased
    extract as the lookup hands it over: the pattern asks for [A-Z] at
    the head of the name but is searched with [re.IGNORECASE], so that
    the name extracted behind "renamed to" is "delta airlines", which is
    not capitalized; from the same sentence with "Delta Airlines" the
    name is "Delta Airlines". *)
Theorem C6_uncapitalized_name airline_name w :
  let text := str "it was renamed to delta airlines." in
  mentions renamed_keywords text /\
  exists r,
    analyze_status text airline_name w = (Returns r, w) /\
    status r = Renamed /\
    new_name r = Some (str "delta airlines") /\
    capitalized (str "delta airlines") = false /\
    exists r',
      analyze_status (str "It was renamed to Delta Airlines.") airline_name w
        = (Returns r', w) /\
      new_name r' = Some (str "Delta Airlines").
Proof.
  split.
  - exists (str "renamed to"). split; [now left|].
    now exists (str "it was "), (str " delta airlines.").
  - eexists. split; [reflexivity|]. split; [reflexivity|].
    split; [reflexivity|]. split; [reflexivity|].
    eexists. split; reflexivity.
Qed.

(** C10, as the code has it: the year is taken from the lowercased text
    whether or not a defunct keyword occurs: it is four digits that
    follow "ceased operation" on the same line, and there is none exactly
    when no four digits follow "ceased operation" on its line.  For
    "ceased operation in 1999" the year is "1999" and the status is
    Unknown, not Defunct. *)
Theorem C10_ceased_year_unconditional :
  (forall text airline_name w,
     exists r,
       analyze_status text airline_name w = (Returns r, w) /\
       match ceased_year r with
       | Some y =>
           four_digits y /\
           exists a b t,
             lower text = a ++ ceased_kw ++ b ++ y ++ t /\ same_line b = true
       | None =>
           forall a b y t,
             same_line b = true -> four_digits y ->
             lower text <> a ++ ceased_kw ++ b ++ y ++ t
       end) /\
  (forall airline_name w,
     is_defunct (lower (str "ceased operation in 1999")) = false /\
     analyze_status (str "ceased operation in 1999") airline_name w =
     (Returns {| status := Unknown; new_name := None;
                 confidence := Low; ceased_year := Some (str "1999") |}, w)).
Proof.
  split; [|now split].
  intros text airline_name w.
  destruct (analyze_status_run text airline_name w) as (o & _ & _ & E).
  eexists. split; [exact E|]. cbn [ceased_year].
  destruct (find_ceased_year (lower text)) as [y|] eqn:Ey.
  - apply ceased_year_sound in Ey as (a & b & t & El & Hb & Hy).
    split; [exact Hy|]. now exists a, b, t.
  - intros a b y t Hb Hy El. rewrite El in Ey. revert Ey.
    now apply ceased_year_complete.
Qed.

(** C10 as stated fails: in "ceased operation", a newline, "1999" four
    digits follow "ceased operation" at a distance of one character, and
    there is no year. *)
Lemma C10_counterexample :
  let text := str "ceased operation" ++ [newline] ++ str "1999" in
  lower text = [] ++ ceased_kw ++ [newline] ++ str "1999" ++ [] /\
  four_digits (str "1999") /\
  exists r,
    analyze_status text (str "Test Air") init_world = (Returns r, init_world) /\
    ceased_year r = None.
Proof.
  split; [reflexivity|]. split; [split; reflexivity|].
  eexists. split; reflexivity.
Qed.


(* ================================================================= *)
(** * More about the classifier *)

(** ** What [strip] keeps *)

Lemma lstrip_split s :
  exists u, s = u ++ lstrip s /\ forallb isspace u = true.
Proof.
  induction s as [|c s (u & E & Hu)]; [now exists []|].
  cbn [lstrip]. destruct (isspace c) eqn:Hc.
  - exists (c :: u). cbn [app forallb]. rewrite Hc, Hu. now rewrite <- E.
  - now exists [].
Qed.

Lemma lstrip_head s :
  lstrip s = [] \/ exists d s', lstrip s = d :: s' /\ isspace d = false.
Proof.
  induction s as [|c s IH]; [now left|].
  cbn [lstrip]. destruct (isspace c) eqn:Hc; [exact IH|].
  right. now exists c, s.
Qed.

Lemma rstrip_split s :
  exists v, s = rstrip s ++ v /\ forallb isspace v = true.
Proof.
  unfold rstrip. destruct (lstrip_split (rev s)) as (u & E & Hu).
  exists (rev u). split.
  - rewrite <- rev_app_distr, <- E. symmetry. apply rev_involutive.
  - rewrite forallb_forall in *. intros x Hx. apply Hu. now apply in_rev.
Qed.

(** A stripped text is cut out of the text, with white space on both
    sides. *)
Lemma strip_split s :
  exists u v,
    s = u ++ strip s ++ v /\
    forallb isspace u = true /\ forallb isspace v = true.
Proof.
  destruct (lstrip_split s) as (u & Eu & Hu).
  destruct (rstrip_split (lstrip s)) as (v & Ev & Hv).
  exists u, v. unfold strip. now rewrite <- Ev.
Qed.

Lemma rstrip_last s d :
  rstrip s <> [] -> isspace (last (rstrip s) d) = false.
Proof.
  unfold rstrip. destruct (lstrip_head (rev s)) as [->|(c & s' & -> & Hc)].
  - easy.
  - intros _. cbn [rev]. now rewrite last_last.
Qed.

Lemma forallb_middle {A} (P : A -> bool) (u m v : list A) :
  forallb P (u ++ m ++ v) = true -> forallb P m = true.
Proof.
  rewrite !forallb_app. intros H.
  apply andb_prop in H as [_ H]. now apply andb_prop in H as [H _].
Qed.

Lemma letter_in_name c : is_letter c = true -> in_name c = true.
Proof. each_char c; vm_compute; intros H; congruence. Qed.

Lemma in_name_no_slash c : in_name c = true -> c <> "/"%char.
Proof. intros H ->. vm_compute in H. discriminate. Qed.

(** X2: a successor name begins with a character that [[A-Z]] accepts
    under [re.IGNORECASE] (among the code points 0..255 of the texts here:
    a letter A-Z or a-z), consists of characters that [[\w\s&-]] accepts
    only, does not end with white space and stands in the text as it is;
    it has no "/", so that it is never the placeholder for a missing
    name. *)
Theorem X2_new_name_shape text airline_name w :
  exists r,
    analyze_status text airline_name w = (Returns r, w) /\
    match new_name r with
    | Some n =>
        (exists c n', n = c :: n' /\ is_letter c = true) /\
        forallb in_name n = true /\
        (forall d, isspace (last n d) = false) /\
        str_in n text = true /\
        ~ In "/"%char n
    | None => True
    end.
Proof.
  destruct (analyze_status_run text airline_name w) as (o & Hrun & _ & E).
  eexists. split; [exact E|]. cbn [new_name].
  destruct o as [n|]; [|exact I].
  destruct (is_renamed (lower text)); [|discriminate].
  destruct (new_name_loop_spec renamed_keywords text w) as (o' & Hrun' & Ho).
  rewrite Hrun in Hrun'. injection Hrun' as <-.
  destruct Ho as (Hne & kw & _ & a & k' & ws & c & g & t & Et & _ & _ & _
                  & Hc & _ & Hg & _ & _ & En).
  assert (Hall : forallb in_name (c :: g) = true).
  { cbn [forallb]. now rewrite (letter_in_name c Hc), Hg. }
  destruct (strip_split (c :: g)) as (u & v & Es & _ & _).
  rewrite <- En in Es.
  assert (Hn : forallb in_name n = true).
  { rewrite Es in Hall. now apply forallb_middle in Hall. }
  repeat split.
  - destruct (strip_head c g (letter_not_space c Hc)) as (n' & Hs).
    exists c, n'. split; [congruence|exact Hc].
  - exact Hn.
  - intros d. rewrite En. unfold strip. apply rstrip_last.
    fold (strip (c :: g)). now rewrite <- En.
  - apply str_in_iff. exists (a ++ k' ++ ws ++ u), (v ++ t).
    rewrite Et, Es. now rewrite <- !app_assoc.
  - intros Hin. rewrite forallb_forall in Hn.
    now apply (in_name_no_slash (Hn _ Hin)).
Qed.

(** X1: the status and the confidence go together: a Renamed or Unknown
    result always has confidence Low; a Defunct result with a year always
    has High; a Defunct result without a year and an Operating result
    have High when "currently" (and, for Defunct, an operating keyword)
    occurs in the lowercased text and Medium otherwise, never Low. *)
Theorem X1_status_confidence text airline_name w :
  exists r,
    analyze_status text airline_name w = (Returns r, w) /\
    match status r with
    | Defunct (Some _) => confidence r = High
    | Defunct None =>
        confidence r =
          if is_operating (lower text) && str_in (str "currently") (lower text)
          then High else Medium
    | Operating =>
        confidence r =
          if str_in (str "currently") (lower text) then High else Medium
    | Renamed | Unknown => confidence r = Low
    end.
Proof.
  destruct (analyze_status_run text airline_name w) as (o & _ & _ & E).
  eexists. split; [exact E|]. cbn [status confidence].
  destruct (is_defunct (lower text)), (is_operating (lower text)),
    (find_ceased_year (lower text)), (is_renamed (lower text) && is_some o);
    cbn [andb orb is_some]; try reflexivity;
    now destruct (str_in (str "currently") (lower text)).
Qed.

(** ** Letter case *)

Lemma lower_char_idem c : lower_char (lower_char c) = lower_char c.
Proof. each_char c; reflexivity. Qed.

Lemma isspace_lower c : isspace (lower_char c) = isspace c.
Proof. each_char c; reflexivity. Qed.

Lemma isdecimal_lower c : isdecimal (lower_char c) = isdecimal c.
Proof. each_char c; reflexivity. Qed.

Lemma isword_lower c : isword (lower_char c) = isword c.
Proof. each_char c; reflexivity. Qed.

Lemma newline_lower c :
  Ascii.eqb (lower_char c) newline = Ascii.eqb c newline.
Proof. each_char c; reflexivity. Qed.

Lemma lower_idem s : lower (lower s) = lower s.
Proof.
  unfold lower. rewrite map_map. apply map_ext. exact lower_char_idem.
Qed.

Lemma item_lower c i :
  item_match true (lower_char c) i = item_match true c i.
Proof.
  destruct i as [x|lo hi|[]]; cbn [item_match lit_match range_match cat_match].
  - now rewrite lower_char_idem.
  - now rewrite lower_char_idem.
  - apply isdecimal_lower.
  - apply isspace_lower.
  - apply isword_lower.
Qed.

(** Under [re.IGNORECASE] no atom tells a character from its lower
    case. *)
Lemma atom_lower a c :
  atom_match true a (lower_char c) = atom_match true a c.
Proof.
  destruct a as [x| |[]|items]; cbn [atom_match lit_match cat_match].
  - now rewrite lower_char_idem.
  - now rewrite newline_lower.
  - apply isdecimal_lower.
  - apply isspace_lower.
  - apply isword_lower.
  - induction items as [|i items IH]; [reflexivity|].
    cbn [existsb]. now rewrite item_lower, IH.
Qed.

Lemma at_end_lower s : at_end (lower s) = at_end s.
Proof.
  destruct s as [|c [|d s]]; cbn [lower map at_end]; try reflexivity.
  apply newline_lower.
Qed.

Lemma slice_lower s a b : slice (lower s) a b = lower (slice s a b).
Proof. unfold slice, lower. now rewrite skipn_map, firstn_map. Qed.

Section LowerSubject.

Variables R R' : Type.
Variable f : R -> R'.

(** Two rests of a pattern that agree when the subject of the second is
    the lower case of the subject of the first. *)
Definition agree (k : cont R) (k' : cont R') : Prop :=
  forall s n g, k' (lower s) n g = option_map f (k s n g).

Lemma rep_greedy_lower a lo hi s n g k k' :
  agree k k' ->
  rep_greedy true a lo hi (lower s) n g k' =
  option_map f (rep_greedy true a lo hi s n g k).
Proof.
  intros Hk. revert lo hi n; induction s as [|c s IH]; intros lo hi n.
  - cbn [lower map rep_greedy]. destruct lo; [apply (Hk [])|reflexivity].
  - cbn [lower map rep_greedy]. fold (lower s). rewrite atom_lower, IH.
    pose proof (Hk (c :: s) n g) as Hstop. cbn [lower map] in Hstop.
    fold (lower s) in Hstop.
    destruct (room hi && atom_match true a c).
    + destruct (rep_greedy true a (pred lo) (dec hi) s (S n) g k);
        [reflexivity|]. cbn [option_map]. destruct lo; [exact Hstop|reflexivity].
    + destruct lo; [exact Hstop|reflexivity].
Qed.

Lemma rep_lazy_lower a lo hi s n g k k' :
  agree k k' ->
  rep_lazy true a lo hi (lower s) n g k' =
  option_map f (rep_lazy true a lo hi s n g k).
Proof.
  intros Hk. revert lo hi n; induction s as [|c s IH]; intros lo hi n.
  - cbn [lower map rep_lazy]. destruct lo; [|reflexivity].
    pose proof (Hk [] n g) as H. cbn [lower map] in H. rewrite H.
    now destruct (k [] n g).
  - cbn [lower map rep_lazy]. fold (lower s). rewrite atom_lower, IH.
    pose proof (Hk (c :: s) n g) as H. cbn [lower map] in H.
    fold (lower s) in H.
    destruct lo.
    + rewrite H. destruct (k (c :: s) n g); [reflexivity|].
      now destruct (room hi && atom_match true a c).
    + now destruct (room hi && atom_match true a c).
Qed.

(** With [re.IGNORECASE], matching the lower case of a subject goes as
    matching the subject. *)
Lemma rmatch_lower r : forall s n g k k',
  agree k k' ->
  rmatch true r (lower s) n g k' = option_map f (rmatch true r s n g k).
Proof.
  induction r as [|a| |r1 IH1 r2 IH2|r1 IH1 r2 IH2|a lo hi greedy|r1 IH1];
    intros s n g k k' Hk; cbn [rmatch].
  - apply Hk.
  - destruct s as [|c s]; [reflexivity|].
    cbn [lower map]. fold (lower s). rewrite atom_lower.
    destruct (atom_match true a c); [apply Hk|reflexivity].
  - rewrite at_end_lower. destruct (at_end s); [apply Hk|reflexivity].
  - apply IH1. intros s' n' g'. now apply IH2.
  - rewrite (IH1 s n g k k' Hk), (IH2 s n g k k' Hk).
    now destruct (rmatch true r1 s n g k).
  - destruct greedy; [now apply rep_greedy_lower|now apply rep_lazy_lower].
  - apply IH1. intros s' n' g'. apply Hk.
Qed.

End LowerSubject.

Lemma match_here_lower r s pos :
  match_here true r (lower s) pos =
  option_map lower_match (match_here true r s pos).
Proof.
  unfold match_here. apply rmatch_lower.
  intros s' n g. cbn [option_map]. f_equal. unfold lower_match.
  cbn [m_start m_end group1]. f_equal.
  destruct g as [[a b]|]; cbn [option_map fst snd]; [|reflexivity].
  now rewrite slice_lower.
Qed.

Lemma search_lower r text :
  search true r (lower text) = option_map lower_match (search true r text).
Proof.
  unfold search. generalize 0 as pos.
  induction text as [|c text IH]; intros pos.
  - cbn [lower map search_from].
    change (@nil ascii) with (lower []) at 1. rewrite match_here_lower.
    now destruct (match_here true r [] pos).
  - cbn [search_from lower map]. fold (lower text).
    change (lower_char c :: lower text) with (lower (c :: text)).
    rewrite match_here_lower.
    destruct (match_here true r (c :: text) pos); [reflexivity|].
    cbn [option_map]. apply IH.
Qed.

Lemma lstrip_lower s : lstrip (lower s) = lower (lstrip s).
Proof.
  induction s as [|c s IH]; [reflexivity|].
  cbn [lower map lstrip]. fold (lower s). rewrite isspace_lower.
  now destruct (isspace c).
Qed.

Lemma strip_lower s : strip (lower s) = lower (strip s).
Proof.
  unfold strip, rstrip. rewrite lstrip_lower.
  assert (Hrev : forall t, rev (lower t) = lower (rev t))
    by (intros t; unfold lower; symmetry; apply map_rev).
  now rewrite Hrev, lstrip_lower, Hrev.
Qed.

(** The loop on the lower case of a text finds the lower case of what it
    finds on the text. *)
Lemma new_name_loop_lower keywords text w o :
  new_name_loop keywords text w = (Returns o, w) ->
  new_name_loop keywords (lower text) w = (Returns (option_map lower o), w).
Proof.
  induction keywords as [|keyword rest IH]; cbn [new_name_loop].
  - intros [= <-]. reflexivity.
  - rewrite search_lower.
    destruct (search true (name_pattern keyword) text) as [m|];
      cbn [option_map]; [|exact IH].
    cbn [lower_match group1]. destruct (group1 m) as [g|]; cbn [option_map].
    + unfold bind, strip_method, ret. intros [= <-].
      cbn [option_map]. now rewrite strip_lower.
    + unfold bind, strip_method, raise. discriminate.
Qed.

(** X3, for texts of the code points 0..255, on which [str.lower] maps
    character by character: the letter case of the text matters to the
    letter case of the successor name only: two such texts with the same
    lower case get the same status, the same confidence and the same
    year, and successor names with the same lower case.  (Not so beyond
    that range: U+0130 has a lower case of two characters.) *)
Theorem X3_letter_case text1 text2 airline_name w :
  lower text1 = lower text2 ->
  exists r1 r2,
    analyze_status text1 airline_name w = (Returns r1, w) /\
    analyze_status text2 airline_name w = (Returns r2, w) /\
    status r1 = status r2 /\
    confidence r1 = confidence r2 /\
    ceased_year r1 = ceased_year r2 /\
    option_map lower (new_name r1) = option_map lower (new_name r2).
Proof.
  intros El.
  destruct (analyze_status_run text1 airline_name w) as (o1 & R1 & _ & E1).
  destruct (analyze_status_run text2 airline_name w) as (o2 & R2 & _ & E2).
  rewrite <- El in R2, E2.
  assert (Eo : option_map lower o1 = option_map lower o2).
  { destruct (is_renamed (lower text1)).
    - apply new_name_loop_lower in R1, R2. rewrite El in R1. congruence.
    - unfold ret in R1, R2. congruence. }
  eexists. eexists. split; [exact E1|]. split; [exact E2|].
  cbn [status confidence ceased_year new_name].
  assert (Es : is_some o1 = is_some o2).
  { destruct o1, o2; try reflexivity; discriminate. }
  rewrite Es. now repeat split.
Qed.

Lemma X3_letter_case_witness :
  exists r1 r2,
    analyze_status (str "It BECAME Air Nova.") (str "Test Air") init_world
      = (Returns r1, init_world) /\
    analyze_status (str "it became air nova.") (str "Test Air") init_world
      = (Returns r2, init_world) /\
    status r1 = status r2 /\
    option_map lower (new_name r1) = option_map lower (new_name r2).
Proof.
  destruct (X3_letter_case (str "It BECAME Air Nova.")
                           (str "it became air nova.")
                           (str "Test Air") init_world eq_refl)
    as (r1 & r2 & H1 & H2 & Hs & _ & _ & Hn).
  exists r1, r2. exact (conj H1 (conj H2 (conj Hs Hn))).
Defined.

(** ** Texts that contain a text *)

Lemma str_in_mono p t before after :
  str_in p t = true -> str_in p (before ++ t ++ after) = true.
Proof.
  intros H. apply str_in_inv in H as (a & b & ->). apply str_in_iff.
  exists (before ++ a), (b ++ after). now rewrite <- !app_assoc.
Qed.

Lemma any_in_mono keywords t before after :
  any_in keywords (lower t) = true ->
  any_in keywords (lower (before ++ t ++ after)) = true.
Proof.
  unfold any_in. rewrite !existsb_exists. intros (kw & Hin & H).
  exists kw. split; [exact Hin|]. rewrite !lower_app. now apply str_in_mono.
Qed.

Lemma ceased_year_mono t before after :
  is_some (find_ceased_year (lower t)) = true ->
  is_some (find_ceased_year (lower (before ++ t ++ after))) = true.
Proof.
  destruct (find_ceased_year (lower t)) as [y|] eqn:Ey; [|discriminate].
  intros _. apply ceased_year_sound in Ey as (a & b & c & El & Hb & Hy).
  destruct (find_ceased_year (lower (before ++ t ++ after))) eqn:E;
    [reflexivity|].
  exfalso. revert E. rewrite !lower_app, El.
  replace (lower before ++ (a ++ ceased_kw ++ b ++ y ++ c) ++ lower after)
    with ((lower before ++ a) ++ ceased_kw ++ b ++ y ++ (c ++ lower after))
    by now rewrite <- !app_assoc.
  now apply ceased_year_complete.
Qed.

(** X4: a text that contains a text classified Defunct is classified
    Defunct too, and not with less confidence: High stays High, and the
    confidence is never Low. *)
Theorem X4_defunct_persists text before after airline_name w r :
  analyze_status text airline_name w = (Returns r, w) ->
  (exists y, status r = Defunct y) ->
  exists r',
    analyze_status (before ++ text ++ after) airline_name w = (Returns r', w) /\
    (exists y', status r' = Defunct y') /\
    (confidence r = High -> confidence r' = High) /\
    confidence r' <> Low.
Proof.
  intros Hr (y & Hy).
  destruct (analyze_status_run text airline_name w) as (o & _ & _ & E).
  match type of E with
  | _ = (Returns ?R, _) => assert (Er : r = R) by congruence
  end.
  clear E.
  assert (Hd : is_defunct (lower text) = true).
  { rewrite Er in Hy. cbn [status] in Hy.
    destruct (is_defunct (lower text)); [reflexivity|].
    destruct (is_operating (lower text)); [discriminate|].
    destruct (is_renamed (lower text) && is_some o); discriminate. }
  assert (Hhigh : confidence r = High ->
                  is_some (find_ceased_year (lower text)) = true \/
                  (is_operating (lower text) = true /\
                   str_in (str "currently") (lower text) = true)).
  { rewrite Er. cbn [confidence]. rewrite Hd.
    destruct (is_some (find_ceased_year (lower text))); [now left|].
    destruct (is_operating (lower text)),
      (str_in (str "currently") (lower text));
      simpl; intros H; try discriminate H. now right. }
  clear Er Hr Hy.
  set (text' := before ++ text ++ after).
  assert (Hd' : is_defunct (lower text') = true)
    by (apply any_in_mono; exact Hd).
  destruct (analyze_status_run text' airline_name w) as (o' & _ & _ & E').
  eexists. split; [exact E'|]. cbn [status confidence]. rewrite Hd'.
  cbn [andb orb]. split; [eauto|]. split.
  - intros Hc. destruct (Hhigh Hc) as [Hyear|[Ho Hcur]].
    + unfold text'. now rewrite (ceased_year_mono text before after Hyear).
    + assert (Ho' : is_operating (lower text') = true)
        by (apply any_in_mono; exact Ho).
      assert (Hcur' : str_in (str "currently") (lower text') = true)
        by (unfold text'; rewrite !lower_app; now apply str_in_mono).
      rewrite Ho', Hcur'.
      now destruct (is_some (find_ceased_year (lower text'))).
  - destruct (is_some (find_ceased_year (lower text'))); [discriminate|].
    destruct (is_operating (lower text')
              && str_in (str "currently") (lower text')); discriminate.
Qed.

Lemma X4_defunct_persists_witness :
  exists r',
    analyze_status (str "Sadly, " ++ str "the airline went bankrupt" ++ str ".")
                   (str "Test Air") init_world = (Returns r', init_world) /\
    (exists y', status r' = Defunct y') /\
    confidence r' <> Low.
Proof.
  destruct (@X4_defunct_persists (str "the airline went bankrupt")
              (str "Sadly, ") (str ".") (str "Test Air") init_world
              {| status := Defunct None; new_name := None;
                 confidence := Medium; ceased_year := None |}
              eq_refl (ex_intro _ None eq_refl))
    as (r' & Hr & Hs & _ & Hc).
  exists r'. exact (conj Hr (conj Hs Hc)).
Defined.

(** ** Which year and which name *)

Lemma digits_ahead_inv s :
  digits_ahead s = true ->
  exists y t, s = y ++ t /\ length y = 4 /\ forallb isdecimal y = true.
Proof.
  destruct s as [|a [|b [|c [|d t]]]]; cbn [digits_ahead];
    rewrite ?andb_false_r; try discriminate.
  intros H. exists [a; b; c; d], t.
  repeat split. cbn [forallb]. now rewrite andb_true_r.
Qed.

Lemma ceased_here_inv_first s pos m :
  match_here false ceased_date_pattern s pos = Some m ->
  exists b y t,
    s = ceased_kw ++ b ++ y ++ t /\ same_line b = true /\
    four_digits y /\ group1 m = Some y /\
    forall b1 b2, b = b1 ++ b2 -> b2 <> [] ->
                  digits_ahead (b2 ++ y ++ t) = false.
Proof.
  intros Hm. pose proof Hm as Hinv.
  unfold match_here, ceased_date_pattern in Hm. cbn [rmatch] in Hm.
  rewrite rmatch_lits, starts_cs in Hm. fold ceased_kw in Hm.
  destruct (startswith ceased_kw s) eqn:Est; [|discriminate].
  apply rep_greedy_inv in Hm as (w1 & t1 & E1 & Hw1 & _ & Hhi1 & Hm).
  apply rep_lazy_inv in Hm as (w2 & t2 & E2 & Hw2 & _ & _ & Hm & Hmin).
  apply rep_greedy_inv in Hm as (w3 & t3 & E3 & Hw3 & Hlo & Hhi & Hm).
  injection Hm as <-. cbn [group1 option_map fst snd].
  apply startswith_inv in Est. rewrite E1, E2, E3 in Est.
  assert (L3 : length w3 = 4) by (simpl in Hhi; lia).
  assert (Hfirst : forall w w', w2 = w ++ w' -> w' <> [] ->
                                digits_ahead (w' ++ w3 ++ t3) = false).
  { intros w w' Ew Hw'.
    destruct (digits_ahead (w' ++ w3 ++ t3)) eqn:Hd; [|reflexivity].
    exfalso. pose proof (Hmin w w' Ew Hw' (Nat.le_0_l _)) as Hnone.
    apply digits_ahead_inv in Hd as (y & t & Ey & Ly & Dy).
    rewrite E3, Ey in Hnone. rewrite <- Ly in Hnone.
    rewrite rep_greedy_exact in Hnone by exact Dy. discriminate. }
  exists (w1 ++ w2), w3, t3. repeat split; auto.
  - now rewrite <- app_assoc.
  - unfold same_line. rewrite forallb_app. apply andb_true_intro. split.
    + revert Hw1. apply forallb_impl. intros c Hc.
      cbn [atom_match lit_match] in Hc.
      apply Ascii.eqb_eq in Hc. now subst c.
    + exact Hw2.
  - f_equal. rewrite Est at 1.
    replace (ceased_kw ++ w1 ++ w2 ++ w3 ++ t3)
      with ((ceased_kw ++ w1 ++ w2) ++ w3 ++ t3)
      by now rewrite <- !app_assoc.
    apply slice_at; rewrite ?length_app; change (length ceased_kw) with 16;
      lia.
  - intros b1 b2 Eb Hb2.
    destruct w1 as [|c w1].
    + cbn [app] in Eb. now apply (Hfirst b1 b2).
    + destruct w1; [|simpl in Hhi1; lia].
      cbn [forallb atom_match lit_match] in Hw1.
      rewrite andb_true_r in Hw1. apply Ascii.eqb_eq in Hw1. subst c.
      destruct b1 as [|c b1]; cbn [app] in Eb.
      * subst b2. reflexivity.
      * injection Eb as <- Eb. now apply (Hfirst b1 b2).
Qed.

Lemma year_at_match s pos :
  year_at s -> match_here false ceased_date_pattern s pos <> None.
Proof. intros (b & y & t & -> & Hb & Hy). now apply ceased_here_complete. Qed.

(** X5: the year, when there is one, is the first run of four digits
    behind the first "ceased operation" of the lowercased text that has
    four digits behind it on its line. *)
Theorem X5_which_year text airline_name w :
  exists r,
    analyze_status text airline_name w = (Returns r, w) /\
    match ceased_year r with
    | Some y =>
        exists a b t,
          lower text = a ++ ceased_kw ++ b ++ y ++ t /\
          same_line b = true /\ four_digits y /\
          (forall b1 b2, b = b1 ++ b2 -> b2 <> [] ->
                         digits_ahead (b2 ++ y ++ t) = false) /\
          (forall a1 a2, a = a1 ++ a2 -> a2 <> [] ->
                         ~ year_at (a2 ++ ceased_kw ++ b ++ y ++ t))
    | None => forall a s, lower text = a ++ s -> ~ year_at s
    end.
Proof.
  destruct (analyze_status_run text airline_name w) as (o & _ & _ & E).
  eexists. split; [exact E|]. cbn [ceased_year].
  unfold find_ceased_year, ceased_match, search.
  destruct (search_from false ceased_date_pattern (lower text) 0)
    as [m|] eqn:Hs.
  - apply search_from_inv in Hs as (i & Hi & Hm & Hno).
    apply ceased_here_inv_first in Hm as (b & y & t & Es & Hb & Hy & -> & Hf).
    exists (firstn i (lower text)), b, t. repeat split; try apply Hy; auto.
    + rewrite <- Es. symmetry. apply firstn_skipn.
    + intros a1 a2 Ea Ha2 Hyear.
      assert (Hj : length a1 < i).
      { assert (L : length (firstn i (lower text)) = i)
          by (apply firstn_length_le; exact Hi).
        rewrite Ea, length_app in L. destruct a2; [easy|simpl in L; lia]. }
      apply (year_at_match (length a1 + 0)) in Hyear. apply Hyear.
      rewrite <- (Hno _ Hj). f_equal.
      rewrite <- (firstn_skipn i (lower text)) at 1.
      now rewrite Ea, <- app_assoc, skipn_app, skipn_all, Nat.sub_diag, Es.
  - intros a s El Hyear.
    apply (year_at_match (length a + 0)) in Hyear. apply Hyear.
    assert (Hnone : search_from false ceased_date_pattern (lower text) 0
                    <> None -> False) by (intros H; now apply H).
    destruct (match_here false ceased_date_pattern s (length a + 0)) eqn:Hm;
      [|reflexivity].
    exfalso. apply Hnone.
    apply search_from_complete with (i := length a).
    + rewrite El, length_app. lia.
    + rewrite El, skipn_app, skipn_all, Nat.sub_diag. cbn [app skipn].
      now rewrite Hm.
Qed.

Lemma name_at_match keyword s pos :
  name_at keyword s -> match_here true (name_pattern keyword) s pos <> None.
Proof.
  intros (k' & ws & c & g & t & -> & Ek & Hws & Sws & Hc & Hg & Ng & Hb).
  now apply name_here_complete.
Qed.

Lemma name_at_follows keyword a s :
  name_at keyword s -> name_follows keyword (a ++ s).
Proof.
  intros (k' & ws & c & g & t & -> & H). now exists a, k', ws, c, g, t.
Qed.

(** The name that a search finds is read at the leftmost place of the
    text where a name can be read behind the keyword. *)
Lemma name_search_leftmost keyword text m :
  search true (name_pattern keyword) text = Some m ->
  exists a s g,
    text = a ++ s /\ group1 m = Some g /\ name_read keyword s (strip g) /\
    forall a1 a2, a = a1 ++ a2 -> a2 <> [] -> ~ name_at keyword (a2 ++ s).
Proof.
  intros H. apply search_from_inv in H as (i & Hi & H & Hno).
  apply name_here_inv in H
    as (k' & ws & c & g & t & E & Ek & Hws & Sws & Hc & Hg & Ng & Hb & Hmin & G).
  exists (firstn i text), (skipn i text), (c :: g). repeat split.
  - symmetry. apply firstn_skipn.
  - exact G.
  - now exists k', ws, c, g, t.
  - intros a1 a2 Ea Ha2 Hat.
    assert (Hj : length a1 < i).
    { assert (L : length (firstn i text) = i)
        by (apply firstn_length_le; exact Hi).
      rewrite Ea, length_app in L. destruct a2; [easy|simpl in L; lia]. }
    apply (name_at_match (length a1 + 0)) in Hat. apply Hat.
    rewrite <- (Hno _ Hj). f_equal.
    assert (Et : text = (a1 ++ a2) ++ skipn i text)
      by (rewrite <- Ea; symmetry; apply firstn_skipn).
    replace (skipn (length a1) text)
      with (skipn (length a1) ((a1 ++ a2) ++ skipn i text))
      by (now rewrite <- Et).
    now rewrite <- app_assoc, skipn_app, skipn_all, Nat.sub_diag.
Qed.

Lemma new_name_loop_which keywords text w n :
  new_name_loop keywords text w = (Returns (Some n), w) ->
  exists before keyword after a s,
    keywords = before ++ keyword :: after /\
    (forall k, In k before -> ~ name_follows k text) /\
    text = a ++ s /\ name_read keyword s n /\
    forall a1 a2, a = a1 ++ a2 -> a2 <> [] -> ~ name_at keyword (a2 ++ s).
Proof.
  induction keywords as [|keyword rest IH]; cbn [new_name_loop];
    [discriminate|].
  destruct (search true (name_pattern keyword) text) as [m|] eqn:Hm.
  - destruct (name_search_leftmost _ _ Hm) as (a & s & g & Et & Hg & Hr & Hl).
    rewrite Hg. unfold bind, strip_method, ret. intros [= <-].
    exists [], keyword, rest, a, s. repeat split; auto.
  - intros H. destruct (IH H) as (before & kw & after & a & s & -> & Hb & Hrest).
    exists (keyword :: before), kw, after, a, s. split; [reflexivity|].
    split; [|exact Hrest].
    intros k [<-|Hin]; [|now apply Hb].
    intros Hf. apply name_follows_search in Hf. now rewrite Hm in Hf.
Qed.

(** X6: the successor name is read behind the first keyword, in the
    order of the list "renamed to", "rebranded as", "now known as", ...,
    that has a name behind it anywhere in the text, whatever stands
    earlier in the text, and at the leftmost place where that keyword
    has a name behind it. *)
Theorem X6_which_name text airline_name w :
  exists r,
    analyze_status text airline_name w = (Returns r, w) /\
    match new_name r with
    | Some n =>
        exists before keyword after a s,
          renamed_keywords = before ++ keyword :: after /\
          (forall k, In k before -> ~ name_follows k text) /\
          text = a ++ s /\ name_read keyword s n /\
          (forall a1 a2, a = a1 ++ a2 -> a2 <> [] ->
                         ~ name_at keyword (a2 ++ s))
    | None => True
    end.
Proof.
  destruct (analyze_status_run text airline_name w) as (o & Hrun & _ & E).
  eexists. split; [exact E|]. cbn [new_name].
  destruct o as [n|]; [|exact I].
  destruct (is_renamed (lower text)); [|discriminate].
  now apply new_name_loop_which in Hrun.
Qed.

(** ** Names in lower case *)

Lemma successor_in_text keyword text n :
  successor_of keyword text n -> str_in n text = true.
Proof.
  intros (a & k' & ws & c & g & t & Et & _ & _ & _ & _ & _ & _ & _ & _ & En).
  destruct (strip_split (c :: g)) as (u & v & Es & _ & _).
  rewrite <- En in Es. apply str_in_iff.
  exists (a ++ k' ++ ws ++ u), (v ++ t).
  rewrite Et, Es. now rewrite <- !app_assoc.
Qed.

Lemma lower_fixed s :
  lower s = s <-> forall c, In c s -> lower_char c = c.
Proof.
  unfold lower. split.
  - induction s as [|d s IH]; [easy|].
    cbn [map]. intros [= Hd Hs] c [<-|Hin]; auto.
  - intros H. rewrite <- (map_id s) at 2. now apply map_ext_in.
Qed.

(** A part of a text in lower case is in lower case. *)
Lemma lower_part t n : lower t = t -> str_in n t = true -> lower n = n.
Proof.
  intros Ht Hin. apply str_in_inv in Hin as (a & b & ->).
  apply lower_fixed. intros c Hc.
  apply (proj1 (lower_fixed _) Ht). rewrite !in_app_iff. auto.
Qed.

(* ================================================================= *)
(** * The lookup and the row of an airline *)

Section LookupFacts.

Variable number : Type.
Variable is_zero : number -> bool.

Implicit Types (env : Env number) (q : Request number).

(** A computation that answers in every environment, prints nothing and
    leaves all of the environment as it is except for the requests
    [extra] that it sends; [Q] holds of its outcome and of [extra]. *)
Definition talks {A} (m : IO number A)
    (Q : Res A -> list (Request number) -> Prop) : Prop :=
  forall env,
    exists r env' extra,
      m env = (r, env') /\ only_talks env env' /\
      console env' = console env /\ sent env' = sent env ++ extra /\
      Q r extra.

Lemma only_talks_refl env : only_talks env env.
Proof. now repeat split. Qed.

Lemma only_talks_trans env1 env2 env3 :
  only_talks env1 env2 -> only_talks env2 env3 -> only_talks env1 env3.
Proof.
  unfold only_talks. intros (A1 & B1 & C1 & D1 & E1 & F1)
                            (A2 & B2 & C2 & D2 & E2 & F2).
  repeat split; etransitivity; eassumption.
Qed.

Lemma talks_io A (r : Res A) Q : Q r [] -> talks (io r) Q.
Proof.
  intros HQ env. exists r, env, []. rewrite app_nil_r.
  split; [now destruct r|]. split; [apply only_talks_refl|]. auto.
Qed.

Lemma talks_ret A (a : A) Q : Q (Ok a) [] -> talks (io_ret a) Q.
Proof. intros HQ. now apply (talks_io (Ok a)). Qed.

Lemma talks_get q Q :
  (forall what, Q (Err (RequestException what)) [q]) ->
  (forall body, Q (Ok body) [q]) ->
  talks (session_get q) Q.
Proof.
  intros Hf Ha env. unfold session_get.
  destruct (network env (sent env ++ [q])) as [what|body];
    eexists; eexists; exists [q]; (split; [reflexivity|]);
    (split; [now repeat split|]); auto.
Qed.

Lemma talks_bind A B (m : IO number A) (f : A -> IO number B) Q :
  talks m (fun r xs =>
             match r with
             | Ok a => talks (f a) (fun r' ys => Q r' (xs ++ ys))
             | Err e => Q (Err e) xs
             end) ->
  talks (io_bind m f) Q.
Proof.
  intros H env. destruct (H env) as (r & env1 & xs & E1 & T1 & C1 & S1 & HQ).
  unfold io_bind. rewrite E1. destruct r as [a|e].
  - destruct (HQ env1) as (r' & env2 & ys & E2 & T2 & C2 & S2 & HQ2).
    exists r', env2, (xs ++ ys).
    split; [exact E2|]. split; [apply (only_talks_trans T1 T2)|].
    split; [congruence|]. split; [|exact HQ2].
    rewrite S2, S1. now rewrite app_assoc.
  - now exists (Err e), env1, xs.
Qed.

(** What the body of the [try] of a lookup does. *)
Definition lookup_outcome (airline_name : pystr)
    (r : Res (WikiResult number)) (extra : list (Request number)) : Prop :=
  exists rest,
    extra = Opensearch airline_name :: rest /\
    match r with
    | Ok (Found title _ extract) =>
        rest = [Extracts title] /\ lower extract = extract
    | Ok (NotFound err) => err = None /\ length rest <= 1
    | Err _ => length rest <= 1
    end.

Lemma py_lower_idem (j : Json number) x : py_lower j = Ok x -> lower x = x.
Proof. destruct j; try discriminate. intros [= <-]. apply lower_idem. Qed.

Ltac stop :=
  unfold lookup_outcome; cbn [app]; eexists; (split; [reflexivity|]);
  cbn [length]; try (split; [reflexivity|]);
  try (eapply py_lower_idem; eassumption); try lia.

(** The steps of the body, one after the other; a step that raises ends
    the body. *)
Ltac talk :=
  repeat first
    [ progress cbn beta iota
    | match goal with
      | |- talks (io_bind _ _) _ => apply talks_bind
      | |- talks (session_get _) _ => apply talks_get; [intros; stop|intros]
      | |- talks (io_ret _) _ => apply talks_ret
      | |- talks (io _) _ => apply talks_io
      | |- talks (if ?b then _ else _) _ => destruct b
      | |- match ?r with Ok _ => _ | Err _ => _ end => destruct r eqn:?
      end ].

(** What a lookup does to the environment and what it returns. *)
Lemma check_wikipedia_run airline_name env :
  exists res env',
    check_wikipedia is_zero airline_name env = (Ok res, env') /\
    only_talks env env' /\
    exists extra,
      sent env' = sent env ++ Opensearch airline_name :: extra /\
      console env' = console env ++ error_lines airline_name res /\
      match res with
      | Found title _ extract =>
          extra = [Extracts title] /\ lower extract = extract
      | NotFound _ => length extra <= 1
      end.
Proof.
  unfold check_wikipedia, try_except.
  match goal with
  | |- context [match ?b env with _ => _ end] =>
      assert (H : talks b (lookup_outcome airline_name))
  end.
  { talk; stop. }
  destruct (H env) as (r & env1 & extra & E & T & C & S & rest & -> & HQ).
  rewrite E. destruct r as [[err|title url extract]|e].
  - destruct HQ as [-> HQ]. exists (NotFound None), env1.
    split; [reflexivity|]. split; [exact T|]. exists rest.
    cbn [error_lines]. now rewrite app_nil_r.
  - exists (Found title url extract), env1.
    split; [reflexivity|]. split; [exact T|]. exists rest.
    cbn [error_lines]. now rewrite app_nil_r.
  - unfold io_bind, print, io_ret. eexists. eexists.
    split; [reflexivity|].
    split; [destruct T as (T1 & T2 & T3 & T4 & T5 & T6); now repeat split|].
    exists rest. cbn [sent console error_lines].
    split; [exact S|]. split; [now rewrite C|exact HQ].
Qed.

(** X7: a lookup never raises: an exception of the network or of Python
    on an answer of an unexpected shape is caught.  It sends the
    opensearch request for the name and at most one request more, prints
    one line exactly when it reports an error, and leaves the rest of the
    environment as it is. *)
Theorem X7_lookup_never_raises airline_name env :
  exists res env' extra,
    check_wikipedia is_zero airline_name env = (Ok res, env') /\
    only_talks env env' /\
    sent env' = sent env ++ Opensearch airline_name :: extra /\
    length extra <= 1 /\
    console env' = console env ++ error_lines airline_name res.
Proof.
  destruct (check_wikipedia_run airline_name env)
    as (res & env' & E & T & extra & S & C & H).
  exists res, env', extra. repeat split; try apply T; auto.
  destruct res as [err|title url extract]; [exact H|].
  destruct H as [-> _]. auto.
Qed.

(** X8: a lookup that finds an article has sent two requests, the second
    for the title that it returns, has printed nothing, and returns an
    extract in lower case. *)
Theorem X8_lookup_found airline_name env env' title url extract :
  check_wikipedia is_zero airline_name env
    = (Ok (Found title url extract), env') ->
  sent env' = sent env ++ [Opensearch airline_name; Extracts title] /\
  console env' = console env /\
  lower extract = extract.
Proof.
  intros Hrun.
  destruct (check_wikipedia_run airline_name env)
    as (res & env1 & E & T & extra & S & C & H).
  rewrite Hrun in E. injection E as <- <-.
  destruct H as [-> Hl]. cbn [error_lines] in C. rewrite app_nil_r in C.
  auto.
Qed.

(** X9: when the search has no hit, that is when its answer is a list
    of fewer than two items or a list whose second item is empty, the
    lookup reports not found without an error, after this one request and
    without printing. *)
Theorem X9_lookup_no_hit airline_name env items :
  network env (sent env ++ [Opensearch airline_name]) = Answers (JList items) ->
  (length items <= 1 \/
   exists (first second : Json number) rest,
     items = first :: second :: rest /\
     (second = JList [] \/ second = JStr [] \/ second = JDict [])) ->
  exists env',
    check_wikipedia is_zero airline_name env = (Ok (NotFound None), env') /\
    sent env' = sent env ++ [Opensearch airline_name] /\
    console env' = console env.
Proof.
  intros Hnet Hitems.
  unfold check_wikipedia, try_except, io_bind at 1, session_get.
  rewrite Hnet.
  destruct Hitems as [Hlen|(x & y & rest & -> & [->|[->| ->]])].
  - destruct items as [|x [|y rest]]; [| |simpl in Hlen; lia];
      eexists; split; reflexivity || (split; reflexivity).
  - eexists; split; reflexivity || (split; reflexivity).
  - eexists; split; reflexivity || (split; reflexivity).
  - eexists; split; reflexivity || (split; reflexivity).
Qed.

(** X10: an answer to the search that is null, a boolean or a number is
    reported as not found with a [TypeError], which is printed; no second
    request is sent. *)
Theorem X10_lookup_wrong_type airline_name env body :
  network env (sent env ++ [Opensearch airline_name]) = Answers body ->
  py_len body = Err TypeError ->
  exists env',
    check_wikipedia is_zero airline_name env
      = (Ok (NotFound (Some TypeError)), env') /\
    sent env' = sent env ++ [Opensearch airline_name] /\
    console env' = console env ++ [WikipediaError airline_name TypeError].
Proof.
  intros Hnet Hlen.
  unfold check_wikipedia, try_except, io_bind at 1, session_get.
  rewrite Hnet. unfold io_bind at 1. rewrite Hlen.
  eexists. split; [reflexivity|]. split; reflexivity.
Qed.

Lemma bind_get_answers A q (f : Json number -> IO number A) env body :
  network env (sent env ++ [q]) = Answers body ->
  io_bind (session_get q) f env =
  f body {| world := world env; network := network env;
            sent := sent env ++ [q]; console := console env;
            clock := clock env; ticks := ticks env;
            writable := writable env; files := files env |}.
Proof. intros H. unfold io_bind, session_get. now rewrite H. Qed.

Section Article.

(** A search with a hit [title] and the answer to the request for its
    extract: a page with the extract [e], '' when the page has none. *)
Variables (airline_name : pystr) (env : Env number).
Variables (q title : Json number) (titles rest : list (Json number)).
Variables (d qd page : list (pystr * Json number)) (key : pystr).
Variable pages : list (pystr * Json number).
Variable e : pystr.

Hypothesis search_answer :
  network env (sent env ++ [Opensearch airline_name])
  = Answers (JList (q :: JList (title :: titles) :: rest)).

Hypothesis content_answer :
  network env ((sent env ++ [Opensearch airline_name]) ++ [Extracts title])
  = Answers (JDict d).

Hypothesis has_query : dict_lookup (str "query") d = Some (JDict qd).

Hypothesis has_pages :
  dict_lookup (str "pages") qd = Some (JDict ((key, JDict page) :: pages)).

Hypothesis has_extract :
  py_get (JDict page) (str "extract") (JStr []) = Ok (JStr e).

Lemma article_run :
  check_wikipedia is_zero airline_name env =
  try_except
    (io_bind
       (if 2 <? length (q :: JList (title :: titles) :: rest)
        then io_bind
               (io (py_item (JList (q :: JList (title :: titles) :: rest)) 2))
               (fun third => io (py_item third 0))
        else io_ret (JStr []))
       (fun url => io_ret (Found title url (lower e))))
    (fun err =>
       io_bind (print (WikipediaError airline_name err))
               (fun _ => io_ret (NotFound (Some err))))
    {| world := world env; network := network env;
       sent := (sent env ++ [Opensearch airline_name]) ++ [Extracts title];
       console := console env; clock := clock env; ticks := ticks env;
       writable := writable env; files := files env |}.
Proof.
  unfold check_wikipedia, try_except.
  erewrite bind_get_answers; [|exact search_answer].
  cbn [io_bind io io_ret py_len py_item length Nat.ltb Nat.leb nth_error].
  erewrite bind_get_answers; [|cbn [network sent]; exact content_answer].
  cbn [io_bind io io_ret py_get]. rewrite has_query.
  cbn [io_bind io io_ret py_get]. rewrite has_pages.
  cbn [io_bind io io_ret py_bool py_first_value]. rewrite has_extract.
  reflexivity.
Qed.

(** X11: for such answers the lookup finds the article: it returns the
    title, the extract in lower case and, as url, the first item of the
    third item of the search answer, '' when the answer has two items
    only. *)
Theorem X11_lookup_article url :
  match rest with
  | [] => Ok (JStr [])
  | third :: _ => py_item third 0
  end = Ok url ->
  exists env',
    check_wikipedia is_zero airline_name env
      = (Ok (Found title url (lower e)), env') /\
    sent env' = sent env ++ [Opensearch airline_name; Extracts title] /\
    console env' = console env.
Proof.
  intros Hurl. rewrite article_run. unfold try_except, io_bind.
  destruct rest as [|third rest']; cbn [length Nat.ltb Nat.leb].
  - injection Hurl as <-. eexists. split; [reflexivity|].
    cbn [sent console]. now rewrite <- app_assoc.
  - cbn [io py_item nth_error io_ret]. rewrite Hurl.
    eexists. split; [reflexivity|].
    cbn [sent console]. now rewrite <- app_assoc.
Qed.

(** X12: when the third item of the search answer has no first item,
    the article, although it was retrieved, is reported as not found,
    with the error of Python on that item ([IndexError] for an empty
    list), which is printed. *)
Theorem X12_lookup_url_error third rest' err :
  rest = third :: rest' ->
  py_item third 0 = Err err ->
  exists env',
    check_wikipedia is_zero airline_name env
      = (Ok (NotFound (Some err)), env') /\
    sent env' = sent env ++ [Opensearch airline_name; Extracts title] /\
    console env' = console env ++ [WikipediaError airline_name err].
Proof.
  intros Hrest Hitem. rewrite article_run. unfold try_except, io_bind.
  rewrite Hrest. cbn [length Nat.ltb Nat.leb io py_item nth_error io_ret].
  rewrite Hitem. eexists. split; [reflexivity|].
  cbn [sent console]. now rewrite <- app_assoc.
Qed.

End Article.

(** What [check_airline] does to the environment and what it returns. *)
Lemma check_airline_run airline_name env :
  exists res r env',
    check_airline is_zero airline_name env = (Ok r, env') /\
    only_talks env env' /\
    (exists extra,
       sent env' = sent env ++ Opensearch airline_name :: extra /\
       length extra <= 1) /\
    console env' =
      console env ++ Checking airline_name :: error_lines airline_name res /\
    airline r = airline_name /\
    match res with
    | NotFound _ =>
        result_status r = NoInformation /\ result_new_name r = None /\
        result_confidence r = Low /\ source r = NotAvailable
    | Found _ url extract =>
        lower extract = extract /\ source r = Wikipedia url /\
        exists a,
          analyze_status extract airline_name (world env)
            = (Returns a, world env) /\
          result_status r = Analysed (status a) /\
          result_new_name r = new_name a /\
          result_confidence r = confidence a
    end.
Proof.
  unfold check_airline, io_bind at 1, print.
  match goal with
  | |- context [io_bind (check_wikipedia _ _) _ ?e] => set (env0 := e)
  end.
  destruct (check_wikipedia_run airline_name env0)
    as (res & env1 & E & T & extra & S & C & H).
  unfold io_bind at 1. rewrite E.
  destruct T as (T1 & T2 & T3 & T4 & T5 & T6).
  cbn [world network clock ticks writable files sent console env0] in *.
  exists res. destruct res as [err|title url extract].
  - eexists. exists env1. split; [reflexivity|].
    split; [now repeat split|]. split; [now exists extra|].
    split; [now rewrite C, <- app_assoc|]. now repeat split.
  - destruct H as [-> Hl].
    destruct (analyze_status_run extract airline_name (world env1))
      as (o & _ & _ & Ea).
    unfold io_bind, in_world. rewrite Ea. unfold io_ret.
    eexists. eexists. split; [reflexivity|].
    cbn [world network clock ticks writable files sent console
         airline result_status result_new_name result_confidence source].
    split; [now repeat split|]. split; [exists [Extracts title]; auto|].
    split; [now rewrite C, <- app_assoc|]. split; [reflexivity|].
    split; [exact Hl|]. split; [reflexivity|].
    eexists. rewrite <- T1. split; [exact Ea|]. now repeat split.
Qed.

(** X13: [check_airline] never raises.  It prints the line of the
    airline and after it the line of the error of the lookup, if any,
    sends the opensearch request for the name and at most one request
    more, leaves the rest of the environment as it is, and returns a row
    for the name it was given. *)
Theorem X13_check_airline_never_raises airline_name env :
  exists r env' extra lines,
    check_airline is_zero airline_name env = (Ok r, env') /\
    only_talks env env' /\
    sent env' = sent env ++ Opensearch airline_name :: extra /\
    length extra <= 1 /\
    console env' = console env ++ Checking airline_name :: lines /\
    length lines <= 1 /\
    airline r = airline_name.
Proof.
  destruct (check_airline_run airline_name env)
    as (res & r & env' & E & T & (extra & S & L) & C & A & _).
  exists r, env', extra, (error_lines airline_name res).
  repeat split; try apply T; auto.
  destruct res as [[e|]|]; cbn [error_lines length]; lia.
Qed.

(** X14: the fields of a row go together: it has no information exactly
    when it has no source, and then its confidence is Low and it has no
    new name; a Renamed or Unknown row has confidence Low; a Defunct or
    Operating row never has Low. *)
Theorem X14_row_invariants airline_name env :
  exists r env',
    check_airline is_zero airline_name env = (Ok r, env') /\
    (result_status r = NoInformation <-> source r = NotAvailable) /\
    match result_status r with
    | NoInformation =>
        result_confidence r = Low /\ result_new_name r = None
    | Analysed Renamed | Analysed Unknown => result_confidence r = Low
    | Analysed (Defunct _) | Analysed Operating => result_confidence r <> Low
    end.
Proof.
  destruct (check_airline_run airline_name env)
    as (res & r & env' & E & _ & _ & _ & _ & H).
  exists r, env'. split; [exact E|].
  destruct res as [err|title url extract].
  - destruct H as (-> & -> & -> & ->). now repeat split.
  - destruct H as (_ & -> & a & Ha & -> & _ & ->).
    split; [split; discriminate|].
    destruct (analyze_status_run extract airline_name (world env))
      as (o & _ & _ & Ea).
    match type of Ea with
    | _ = (Returns ?R, _) => assert (Er : a = R) by congruence
    end.
    rewrite Er. cbn [status confidence].
    destruct (is_defunct (lower extract)), (is_operating (lower extract)),
      (is_some (find_ceased_year (lower extract))),
      (is_renamed (lower extract) && is_some o),
      (str_in (str "currently") (lower extract));
      simpl; try reflexivity; discriminate.
Qed.

(** X15: the new name of a row is in lower case, because the lookup
    lowers the extract before it is analysed: it is not empty, lowering
    it changes nothing, and it does not begin with a capital A-Z. *)
Theorem X15_row_name_lower_case airline_name env :
  exists r env',
    check_airline is_zero airline_name env = (Ok r, env') /\
    match result_new_name r with
    | Some n => lower n = n /\ capitalized n = false /\ n <> []
    | None => True
    end.
Proof.
  destruct (check_airline_run airline_name env)
    as (res & r & env' & E & _ & _ & _ & _ & H).
  exists r, env'. split; [exact E|].
  destruct res as [err|title url extract].
  - destruct H as (_ & -> & _). exact I.
  - destruct H as (Hl & _ & a & Ha & _ & -> & _).
    destruct (analyze_status_run extract airline_name (world env))
      as (o & Hrun & Ho & Ea).
    match type of Ea with
    | _ = (Returns ?R, _) => assert (Er : a = R) by congruence
    end.
    rewrite Er. cbn [new_name].
    destruct o as [n|]; [|exact I].
    destruct (is_renamed (lower extract)); [|discriminate].
    destruct (new_name_loop_spec renamed_keywords extract (world env))
      as (o' & Hrun' & Ho').
    rewrite Hrun in Hrun'. injection Hrun' as <-.
    destruct Ho' as (Hne & kw & _ & Hs).
    assert (Hn : lower n = n)
      by (eapply lower_part; [exact Hl|eapply successor_in_text; exact Hs]).
    repeat split; auto.
    destruct n as [|c n']; [easy|].
    cbn [capitalized]. cbn [lower map] in Hn. injection Hn as Hc _.
    revert Hc. clear. each_char c; vm_compute; congruence.
Qed.

End LookupFacts.

(* ================================================================= *)
(** * The report *)

Section ReportFacts.

Variable number : Type.

Implicit Types (ws : Sheet number) (r : CheckResult number).

Lemma update_cell_cells row col f ws (i j : nat) :
  cells (update_cell row col f ws) i j =
  if (i =? row) && (j =? col) then f (cells ws i j) else cells ws i j.
Proof. reflexivity. Qed.

Lemma write_row_cells ws idx r row col :
  cells (write_row ws (idx, r)) row col =
  if row =? idx then row_cell idx r col (cells ws row col)
  else cells ws row col.
Proof.
  unfold write_row. cbn [fold_left seq].
  destruct (row =? idx) eqn:E;
    destruct col as [|[|[|[|[|[|[|col]]]]]]];
    repeat (rewrite update_cell_cells, E; cbn [andb Nat.eqb]);
    reflexivity.
Qed.

Lemma enumerate_cons {A} (x : A) l start :
  enumerate (x :: l) start = (start, x) :: enumerate l (S start).
Proof. reflexivity. Qed.

(** The loop over the results writes the row [start + k] for the result
    of index [k] and no other cell. *)
Lemma write_rows_cells results : forall start ws row col,
  cells (fold_left (@write_row number) (enumerate results start) ws) row col =
  match nth_error results (row - start) with
  | Some r =>
      if start <=? row then row_cell row r col (cells ws row col)
      else cells ws row col
  | None => cells ws row col
  end.
Proof.
  induction results as [|r results IH]; intros start ws row col.
  - cbn [enumerate length seq combine fold_left].
    now destruct (row - start).
  - rewrite enumerate_cons. cbn [fold_left]. rewrite IH, write_row_cells.
    destruct (Nat.lt_trichotomy row start) as [Hlt|[->|Hgt]].
    + replace (row - S start) with 0 by lia.
      replace (row - start) with 0 by lia. cbn [nth_error].
      replace (S start <=? row) with false by (symmetry; apply Nat.leb_gt; lia).
      replace (start <=? row) with false by (symmetry; apply Nat.leb_gt; lia).
      replace (row =? start) with false by (symmetry; apply Nat.eqb_neq; lia).
      now destruct results.
    + replace (start - S start) with 0 by lia. rewrite Nat.sub_diag.
      cbn [nth_error]. rewrite Nat.eqb_refl, Nat.leb_refl.
      replace (S start <=? start) with false
        by (symmetry; apply Nat.leb_gt; lia).
      now destruct results.
    + replace (row - start) with (S (row - S start)) by lia.
      cbn [nth_error].
      replace (row =? start) with false by (symmetry; apply Nat.eqb_neq; lia).
      replace (S start <=? row) with true by (symmetry; apply Nat.leb_le; lia).
      replace (start <=? row) with true by (symmetry; apply Nat.leb_le; lia).
      reflexivity.
Qed.

Lemma header_cells row col :
  cells (fold_left (@write_header number) (enumerate headers 1)
                   (new_sheet number "Статус авиакомпаний")) row col =
  if row =? 1
  then if (1 <=? col) && (col <=? 6)
       then header_cell number (nth (col - 1) headers ""%string)
       else empty_cell number
  else empty_cell number.
Proof.
  cbn [enumerate headers length seq combine fold_left]. unfold write_header.
  destruct row as [|[|row]];
    destruct col as [|[|[|[|[|[|[|col]]]]]]];
    repeat (rewrite update_cell_cells; cbn [andb Nat.eqb]);
    reflexivity.
Qed.

Lemma set_width_cells column width ws :
  cells (set_width column width ws) = cells ws.
Proof. reflexivity. Qed.

Lemma set_freeze_cells cell ws : cells (set_freeze cell ws) = cells ws.
Proof. reflexivity. Qed.

(** The cells of the first sheet. *)
Lemma status_sheet_cells results row col :
  cells (status_sheet results) row col =
  match nth_error results (row - 2) with
  | Some r =>
      if 2 <=? row then row_cell row r col (empty_cell number)
      else if row =? 1
           then if (1 <=? col) && (col <=? 6)
                then header_cell number (nth (col - 1) headers ""%string)
                else empty_cell number
           else empty_cell number
  | None =>
      if row =? 1
      then if (1 <=? col) && (col <=? 6)
           then header_cell number (nth (col - 1) headers ""%string)
           else empty_cell number
      else empty_cell number
  end.
Proof.
  unfold status_sheet.
  rewrite set_freeze_cells, write_rows_cells, !set_width_cells, header_cells.
  destruct (nth_error results (row - 2)); [|reflexivity].
  destruct (2 <=? row) eqn:H; [|reflexivity].
  apply Nat.leb_le in H.
  replace (row =? 1) with false by (symmetry; apply Nat.eqb_neq; lia).
  reflexivity.
Qed.


(** X18: the first sheet has nothing but the six headers in row 1 and
    the rows of the results: every cell of row 0, of a row below the last
    result, of column 0 or of a column behind the sixth is empty. *)
Theorem X18_report_extent results row col :
  let ws := status_sheet results in
  (row = 1 -> 1 <= col <= 6 ->
   cells ws row col = header_cell number (nth (col - 1) headers ""%string)) /\
  (row = 0 \/ length results + 1 < row \/ col = 0 \/ 6 < col ->
   cells ws row col = empty_cell number).
Proof.
  intros ws. unfold ws. rewrite status_sheet_cells. split.
  - intros -> [H1 H6].
    replace (1 <=? col) with true by (symmetry; apply Nat.leb_le; lia).
    replace (col <=? 6) with true by (symmetry; apply Nat.leb_le; lia).
    change (1 - 2) with 0. destruct (nth_error results 0); reflexivity.
  - intros H.
    destruct (nth_error results (row - 2)) as [r|] eqn:Hn.
    + assert (Hlt : row - 2 < length results)
        by (apply nth_error_Some; congruence).
      destruct (2 <=? row) eqn:H2.
      * apply Nat.leb_le in H2.
        destruct H as [H|[H|[H|H]]]; try lia.
        -- subst col. reflexivity.
        -- do 7 (destruct col as [|col]; [lia|]). reflexivity.
      * apply Nat.leb_gt in H2.
        destruct row as [|[|row]]; [reflexivity| |lia].
        destruct H as [H|[H|[H|H]]]; try lia.
        -- subst col. reflexivity.
        -- cbn [Nat.eqb].
           replace (col <=? 6) with false by (symmetry; apply Nat.leb_gt; lia).
           now rewrite andb_false_r.
    + destruct (row =? 1) eqn:H1; [|reflexivity].
      apply Nat.eqb_eq in H1. subst row.
      destruct H as [H|[H|[H|H]]]; try lia.
      * subst col. reflexivity.
      * replace (col <=? 6) with false by (symmetry; apply Nat.leb_gt; lia).
        now rewrite andb_false_r.
Qed.

End ReportFacts.

(* ================================================================= *)
(** * The list of airlines *)

Lemma split_lines_no_newline s :
  forall line, In line (split_lines s) -> ~ In newline line.
Proof.
  induction s as [|c s IH]; intros line; cbn [split_lines].
  - intros [<-|[]] [].
  - destruct (Ascii.eqb c newline) eqn:E.
    + intros [<-|H]; [intros []|now apply IH].
    + destruct (split_lines s) as [|l ls] eqn:Es.
      * intros [<-|[]] [->|[]]. rewrite Ascii.eqb_refl in E. discriminate.
      * intros [<-|H].
        -- intros [->|H'].
           ++ rewrite Ascii.eqb_refl in E. discriminate.
           ++ apply (IH l); [now left|exact H'].
        -- apply IH. now right.
Qed.

Lemma split_lines_one s :
  ~ In newline s -> split_lines s = [s].
Proof.
  induction s as [|c s IH]; intros H; [reflexivity|].
  cbn [split_lines]. destruct (Ascii.eqb c newline) eqn:E.
  - apply Ascii.eqb_eq in E. subst c. exfalso. apply H. now left.
  - rewrite IH; [reflexivity|]. intros H'. apply H. now right.
Qed.

Lemma split_lines_app s t :
  ~ In newline s ->
  split_lines (s ++ newline :: t) = s :: split_lines t.
Proof.
  induction s as [|c s IH]; intros H.
  - cbn [app split_lines]. now rewrite Ascii.eqb_refl.
  - cbn [app split_lines]. destruct (Ascii.eqb c newline) eqn:E.
    + apply Ascii.eqb_eq in E. subst c. exfalso. apply H. now left.
    + rewrite IH; [reflexivity|]. intros H'. apply H. now right.
Qed.

Lemma rev_last_first (s : pystr) c :
  rev (c :: s) = last (c :: s) c :: rev (removelast (c :: s)).
Proof.
  rewrite <- rev_unit. f_equal.
  apply app_removelast_last. discriminate.
Qed.

(** White space is stripped from the ends only. *)
Lemma strip_clean c s :
  isspace c = false -> isspace (last (c :: s) c) = false ->
  strip (c :: s) = c :: s.
Proof.
  intros Hc Hl. unfold strip. cbn [lstrip]. rewrite Hc. unfold rstrip.
  rewrite rev_last_first. cbn [lstrip]. rewrite Hl.
  rewrite <- rev_last_first. apply rev_involutive.
Qed.

Lemma no_newline_forallb s :
  ~ In newline s <->
  forallb (fun x => negb (Ascii.eqb x newline)) s = true.
Proof.
  rewrite forallb_forall. split.
  - intros H x Hx. destruct (Ascii.eqb x newline) eqn:E; [|reflexivity].
    apply Ascii.eqb_eq in E. now subst x.
  - intros H Hn. apply H in Hn. now rewrite Ascii.eqb_refl in Hn.
Qed.

Lemma tidy_inv name :
  tidy name = true ->
  ~ In newline name /\
  exists c s, name = c :: s /\ isspace c = false /\
              isspace (last name c) = false.
Proof.
  destruct name as [|c s]; [discriminate|]. unfold tidy.
  intros H. apply andb_prop in H as [H Hn]. apply andb_prop in H as [Hc Hl].
  split; [now apply no_newline_forallb|].
  exists c, s. apply negb_true_iff in Hc, Hl. now repeat split.
Qed.

Lemma strip_tidy name : tidy name = true -> strip name = name.
Proof.
  intros H. destruct (@tidy_inv _ H) as (_ & c & s & -> & Hc & Hl).
  now apply strip_clean.
Qed.

(** X16: every airline of the list is a line of the text without the
    white space at its ends: it is not empty, begins and ends with a
    character that is not white space, has no line break, and stripping
    it again changes nothing. *)
Theorem X16_airlines_list_tidy airlines name :
  In name (airlines_list airlines) ->
  tidy name = true /\ strip name = name /\
  exists line, In line (split_lines airlines) /\ name = strip line.
Proof.
  unfold airlines_list. intros H. apply in_map_iff in H as (line & <- & H).
  apply filter_In in H as [Hin Ht].
  assert (T : tidy (strip line) = true).
  { destruct (strip line) as [|c s] eqn:E; [discriminate|].
    assert (Hnl : ~ In newline (c :: s)).
    { intros Hc. apply (split_lines_no_newline _ _ Hin).
      destruct (strip_split line) as (u & v & -> & _).
      rewrite E. apply in_or_app. right. apply in_or_app. now left. }
    unfold strip in E.
    assert (Hlast : isspace (last (c :: s) c) = false).
    { rewrite <- E. apply rstrip_last. rewrite E. discriminate. }
    destruct (lstrip_head line) as [El|(d & s' & El & Hd)].
    - rewrite El in E. discriminate.
    - destruct (rstrip_split (lstrip line)) as (v & Ev & _).
      rewrite E, El in Ev. injection Ev as <- _.
      unfold tidy. rewrite Hd, Hlast. cbn [negb andb].
      now apply no_newline_forallb. }
  split; [exact T|]. split; [now apply strip_tidy|]. now exists line.
Qed.

Lemma airlines_list_cons name t :
  tidy name = true ->
  airlines_list (name ++ newline :: t) = name :: airlines_list t.
Proof.
  intros H. unfold airlines_list.
  rewrite split_lines_app by apply (@tidy_inv _ H).
  cbn [filter]. rewrite (@strip_tidy _ H).
  destruct name as [|c s]; [discriminate|].
  cbn [truthy map]. now rewrite (@strip_tidy _ H).
Qed.

(** X19: the list of airlines of the text that has one tidy name on
    each line is the list of these names, in their order. *)
Theorem X19_airlines_list_of_lines names :
  forallb tidy names = true ->
  airlines_list (join_lines names) = names.
Proof.
  induction names as [|name names IH]; [reflexivity|].
  cbn [forallb]. intros H. apply andb_prop in H as [Hn Hs].
  destruct names as [|name' names].
  - cbn [join_lines]. unfold airlines_list.
    rewrite split_lines_one by apply (@tidy_inv _ Hn).
    cbn [filter]. rewrite (@strip_tidy _ Hn).
    destruct name as [|c s]; [discriminate|].
    cbn [truthy map]. now rewrite (@strip_tidy _ Hn).
  - change (join_lines (name :: name' :: names))
      with (name ++ newline :: join_lines (name' :: names)).
    rewrite airlines_list_cons by exact Hn. now rewrite IH.
Qed.

(* ================================================================= *)
(** * The script *)

Section MainFacts.

Variable number : Type.
Variable is_zero : number -> bool.

Implicit Types (env : Env number) (results : list (CheckResult number)).

(** A report fails in a cell write, before the clock is read, or in the
    save, after it. *)
Lemma create_excel_report_run results filename env :
  create_excel_report results filename env =
  if existsb (@refused_row number) results
  then (Err IllegalCharacterError, env)
  else if writable env filename
  then (Ok filename,
        {| world := world env; network := network env; sent := sent env;
           console := console env ++ [ReportSaved filename];
           clock := clock env; ticks := S (ticks env);
           writable := writable env;
           files := files env
                    ++ [(filename,
                         report_of (clock env (ticks env)) results)] |})
  else (Err OSError,
        {| world := world env; network := network env; sent := sent env;
           console := console env; clock := clock env;
           ticks := S (ticks env); writable := writable env;
           files := files env |}).
Proof.
  unfold create_excel_report, io_bind at 1.
  destruct (existsb (@refused_row number) results); [reflexivity|].
  unfold io_ret at 1, io_bind, now, save, print, io_ret.
  cbn [writable world network sent console clock ticks files].
  destruct (writable env filename); reflexivity.
Qed.

(** What a report does, by its error. *)
Lemma create_excel_report_error results filename env :
  match report_error (writable env) results filename with
  | None =>
      create_excel_report results filename env =
      (Ok filename,
       {| world := world env; network := network env; sent := sent env;
          console := console env ++ [ReportSaved filename];
          clock := clock env; ticks := S (ticks env);
          writable := writable env;
          files := files env
                   ++ [(filename,
                        report_of (clock env (ticks env)) results)] |})
  | Some e =>
      exists env',
        create_excel_report results filename env = (Err e, env') /\
        world env' = world env /\ network env' = network env /\
        sent env' = sent env /\ console env' = console env /\
        clock env' = clock env /\ writable env' = writable env /\
        files env' = files env
  end.
Proof.
  rewrite create_excel_report_run. unfold report_error.
  destruct (existsb (@refused_row number) results).
  - exists env. now repeat split.
  - destruct (writable env filename); [reflexivity|].
    eexists. split; [reflexivity|]. now repeat split.
Qed.

Lemma hundreds_cons start len :
  hundreds start (S len) =
  if start mod 100 =? 0 then start :: hundreds (S start) len
  else hundreds (S start) len.
Proof. reflexivity. Qed.


Lemma main_loop_cons total idx airline_name rest results env :
  main_loop is_zero total ((idx, airline_name) :: rest) results env =
  io_bind (print (Progress idx total)) (fun _ =>
  io_bind (check_airline is_zero airline_name) (fun result =>
  io_bind (if idx mod 100 =? 0
           then io_bind (create_excel_report (results ++ [result])
                           (temp_filename idx))
                        (fun _ => print (Intermediate idx))
           else io_ret tt) (fun _ =>
  main_loop is_zero total rest (results ++ [result])))) env.
Proof. reflexivity. Qed.

Lemma temp_reports_firstn (clk : nat -> pystr) hs :
  forall tick results (extra : list (CheckResult number)),
  (forall idx, In idx hs -> idx <= length results) ->
  temp_reports clk tick hs (results ++ extra) =
  temp_reports clk tick hs results.
Proof.
  induction hs as [|h hs IH]; intros tick results extra H; [reflexivity|].
  cbn [temp_reports]. rewrite IH by (intros; apply H; now right).
  rewrite firstn_app.
  replace (h - length results) with 0
    by (specialize (H h (or_introl eq_refl)); lia).
  cbn [firstn]. now rewrite app_nil_r.
Qed.


(** The loop: its rows, and its outcome by the first error of an
    intermediate report. *)
Lemma main_loop_spec total : forall names start results env,
  start = length results + 1 ->
  exists results' out env',
    main_loop is_zero total (enumerate names start) results env
      = (out, env') /\
    map (@airline number) results' = names /\
    Forall2 (looked_up is_zero) names results' /\
    Forall (fun r => is_no_information r = true ->
                     has_confidence Low r = true) results' /\
    world env' = world env /\ network env' = network env /\
    clock env' = clock env /\ writable env' = writable env /\
    length (sent env') <= length (sent env) + 2 * length names /\
    (exists lines, console env' = console env ++ lines) /\
    match temp_error (writable env) (hundreds start (length names))
                     (results ++ results') with
    | None =>
        out = Ok (results ++ results') /\
        files env' =
          files env ++ temp_reports (clock env) (ticks env)
                         (hundreds start (length names))
                         (results ++ results') /\
        ticks env' = ticks env + length (hundreds start (length names)) /\
        length (sent env) + length names <= length (sent env')
    | Some e => out = Err e
    end.
Proof.
  induction names as [|name names IH]; intros start results env Hs.
  - exists [], (Ok results), env.
    cbn [enumerate length seq combine main_loop hundreds filter
         temp_error temp_reports map].
    unfold io_ret. rewrite !app_nil_r.
    split; [reflexivity|]. split; [reflexivity|].
    split; [constructor|]. split; [constructor|].
    do 4 (split; [reflexivity|]). split; [lia|].
    split; [exists []; now rewrite app_nil_r|].
    repeat split; lia.
  - rewrite enumerate_cons, main_loop_cons.
    unfold io_bind at 1, print at 1.
    match goal with
    | |- context [io_bind (check_airline _ _) _ ?e] => set (env0 := e)
    end.
    destruct (check_airline_run is_zero name env0)
      as (res & r & env1 & E & T & (extra & S & L) & C & A & H).
    unfold io_bind at 1. rewrite E.
    destruct T as (T1 & T2 & T3 & T4 & T5 & T6).
    unfold env0 in T1, T2, T3, T4, T5, T6, S, C.
    cbn [world network clock ticks writable files sent console] in *.
    assert (Hlook : looked_up is_zero name r) by now exists env0, env1.
    clearbody env0. clear E.
    cbn [length]. rewrite hundreds_cons.
    assert (Hr : is_no_information r = true -> has_confidence Low r = true).
    { unfold is_no_information, has_confidence.
      destruct res as [err|title url extract].
      - destruct H as (_ & _ & -> & _). reflexivity.
      - destruct H as (_ & _ & a & _ & -> & _). discriminate. }
    clear H.
    assert (Hlen : Datatypes.S start = length (results ++ [r]) + 1)
      by (rewrite length_app; cbn [length]; lia).
    assert (Hfirst : forall rest,
              firstn start (results ++ r :: rest) = results ++ [r]).
    { intros rest. change (r :: rest) with ([r] ++ rest).
      rewrite app_assoc, firstn_app.
      replace start with (length (results ++ [r])) by lia.
      now rewrite firstn_all, Nat.sub_diag, app_nil_r. }
    assert (Hsent : length (sent env1) <= length (sent env) + 2
                    /\ length (sent env) + 1 <= length (sent env1)).
    { rewrite S, length_app. cbn [length]. lia. }
    assert (Hcons : exists lines, console env1 = console env ++ lines).
    { eexists. rewrite C, <- app_assoc. reflexivity. }
    destruct (start mod 100 =? 0) eqn:Hm.
    + unfold io_bind at 1. unfold io_bind at 1.
      pose proof (create_excel_report_error (results ++ [r])
                    (temp_filename start) env1) as Hrep.
      rewrite T5 in Hrep.
      destruct (report_error (writable env) (results ++ [r])
                  (temp_filename start)) as [e|] eqn:He.
      * destruct Hrep as (env2 & E2 & W1 & W2 & W3 & W4 & W5 & W6 & W7).
        rewrite E2.
        destruct (IH (Datatypes.S start) (results ++ [r]) env1 Hlen)
          as (results' & _ & _ & _ & Hn & Hl & Hf & _).
        exists (r :: results'), (Err e), env2.
        split; [reflexivity|]. split; [cbn [map]; now rewrite A, Hn|].
        split; [now constructor|]. split; [now constructor|].
        split; [congruence|]. split; [congruence|].
        split; [congruence|]. split; [congruence|].
        split; [rewrite W3; cbn [length]; lia|].
        split; [rewrite W4; exact Hcons|].
        cbn [temp_error]. now rewrite Hfirst, He.
      * rewrite Hrep. unfold print at 1.
        match goal with
        | |- context [main_loop _ _ _ _ ?e] => set (env2 := e)
        end.
        destruct (IH (Datatypes.S start) (results ++ [r]) env2 Hlen)
          as (results' & out & env' & El & Hn & Hl & Hf & W1 & W2 & W3
              & W4 & Se & (lines & Co) & Hout).
        unfold env2 in W1, W2, W3, W4, Se, Co, Hout.
        cbn [world network clock ticks writable files sent console] in *.
        rewrite <- (app_assoc results [r] results') in Hout.
        cbn [app] in Hout.
        exists (r :: results'), out, env'.
        split; [exact El|]. split; [cbn [map]; now rewrite A, Hn|].
        split; [now constructor|]. split; [now constructor|].
        split; [congruence|]. split; [congruence|].
        split; [congruence|]. split; [congruence|].
        split; [cbn [length]; lia|].
        split.
        { destruct Hcons as (l1 & C1). eexists.
          rewrite Co, C1, <- !app_assoc. reflexivity. }
        cbn [temp_error]. rewrite Hfirst, He.
        destruct (temp_error (writable env)
                    (hundreds (Datatypes.S start) (length names))
                    (results ++ r :: results')); [exact Hout|].
        destruct Hout as (-> & Fi & Ti & Sl).
        split; [reflexivity|].
        split.
        { rewrite Fi, T6, T3, T4, <- app_assoc. cbn [app temp_reports].
          now rewrite Hfirst. }
        split; [rewrite Ti, T4; cbn [length]; lia|].
        cbn [length]. lia.
    + unfold io_bind at 1, io_ret at 1.
      destruct (IH (Datatypes.S start) (results ++ [r]) env1 Hlen)
        as (results' & out & env' & El & Hn & Hl & Hf & W1 & W2 & W3
            & W4 & Se & (lines & Co) & Hout).
      rewrite T5 in Hout.
      rewrite <- (app_assoc results [r] results') in Hout.
      cbn [app] in Hout.
      exists (r :: results'), out, env'.
      split; [exact El|]. split; [cbn [map]; now rewrite A, Hn|].
      split; [now constructor|]. split; [now constructor|].
      split; [congruence|]. split; [congruence|].
      split; [congruence|]. split; [congruence|].
      split; [cbn [length]; lia|].
      split.
      { destruct Hcons as (l1 & C1). eexists.
        rewrite Co, C1, <- !app_assoc. reflexivity. }
      destruct (temp_error (writable env)
                  (hundreds (Datatypes.S start) (length names))
                  (results ++ r :: results')); [exact Hout|].
      destruct Hout as (-> & Fi & Ti & Sl).
      split; [reflexivity|].
      split; [now rewrite Fi, T6, T3, T4|].
      split; [rewrite Ti, T4; lia|].
      cbn [length]. lia.
Qed.



Lemma count_split (p : CheckResult number -> bool) results :
  count (fun r => negb (p r)) results + count p results = length results.
Proof.
  unfold count. induction results as [|r results IH]; [reflexivity|].
  cbn [filter length]. destruct (p r); cbn [negb length]; lia.
Qed.

Lemma count_confidence results :
  count (has_confidence High) results
  + count (has_confidence Medium) results
  + count (has_confidence Low) results = length results.
Proof.
  unfold count. induction results as [|r results IH]; [reflexivity|].
  cbn [filter length].
  destruct (has_confidence High r) eqn:E1,
           (has_confidence Medium r) eqn:E2,
           (has_confidence Low r) eqn:E3;
    unfold has_confidence in E1, E2, E3;
    destruct (result_confidence r); try discriminate; cbn [length]; lia.
Qed.

Lemma count_le (p q : CheckResult number -> bool) results :
  Forall (fun r => p r = true -> q r = true) results ->
  count p results <= count q results.
Proof.
  unfold count. induction 1 as [|r results H _ IH]; [reflexivity|].
  cbn [filter]. destruct (p r).
  - rewrite H by reflexivity. cbn [length]. lia.
  - destruct (q r); cbn [length]; lia.
Qed.



Ltac main_start :=
  unfold main;
  unfold io_bind at 1, print at 1; unfold io_bind at 1, print at 1;
  unfold io_bind at 1, new_checker at 1; cbv beta iota;
  cbn [world network clock ticks writable files sent console];
  match goal with
  | |- context [io_bind (main_loop _ _ _ _) _ ?e] => set (env0 := e)
  end.

(** The script: its rows, and its outcome by the first error of a
    report. *)
Lemma main_run airlines env :
  let n := length (airlines_list airlines) in
  exists results out env',
    main is_zero airlines env = (out, env') /\
    map (@airline number) results = airlines_list airlines /\
    Forall2 (looked_up is_zero) (airlines_list airlines) results /\
    Forall (fun r => is_no_information r = true ->
                     has_confidence Low r = true) results /\
    length (sent env') <= length (sent env) + 2 * n /\
    match main_error (writable env) n results with
    | None =>
        out = Ok tt /\
        files env' =
          files env
          ++ temp_reports (clock env) (ticks env) (hundreds 1 n) results
          ++ [(final_filename,
               report_of (clock env (ticks env + length (hundreds 1 n)))
                         results)] /\
        (exists lines,
           console env' =
             console env ++ Total n :: Rule :: lines
             ++ [ReportSaved final_filename; Rule; StatisticsTitle;
                 Checked (length results);
                 InformationFound
                   (count (fun r => negb (is_no_information r)) results);
                 InformationNotFound
                   (count (@is_no_information number) results);
                 HighConfidence (count (has_confidence High) results);
                 MediumConfidence (count (has_confidence Medium) results);
                 LowConfidence (count (has_confidence Low) results);
                 FinalReport final_filename; Rule]) /\
        length (sent env) + n <= length (sent env')
    | Some e => out = Err e
    end.
Proof.
  intros n. main_start. fold n.
  destruct (@main_loop_spec n (airlines_list airlines) 1 [] env0 eq_refl)
    as (results & out & env1 & El & Hn & Hl & Hr & W1 & W2 & W3 & W4
        & Se & (lines & Co) & Hout).
  fold n in Se, Hout.
  unfold env0 in W1, W2, W3, W4, Se, Co, Hout.
  cbn [world network clock ticks writable files sent console app] in *.
  unfold main_error.
  exists results.
  destruct (temp_error (writable env) (hundreds 1 n) results) as [e|].
  - subst out. unfold io_bind at 1. rewrite El.
    exists (Err e), env1. now repeat split.
  - destruct Hout as (-> & Fi & Ti & Sl).
    unfold io_bind at 1. rewrite El. unfold io_bind at 1.
    pose proof (create_excel_report_error results final_filename env1)
      as Hrep.
    rewrite W4 in Hrep.
    destruct (report_error (writable env) results final_filename) as [e|].
    + destruct Hrep as (env2 & -> & _ & _ & S2 & _).
      exists (Err e), env2. split; [reflexivity|].
      rewrite S2. now repeat split.
    + rewrite Hrep.
      do 9 (unfold io_bind at 1, print at 1; cbv beta iota;
            cbn [world network clock ticks writable files sent console]).
      unfold print.
      cbn [world network clock ticks writable files sent console].
      eexists. eexists. split; [reflexivity|].
      cbn [files console sent].
      split; [exact Hn|]. split; [exact Hl|]. split; [exact Hr|].
      split; [exact Se|]. split; [reflexivity|].
      split; [now rewrite Fi, W3, Ti, <- app_assoc|].
      split; [exists lines; rewrite Co, <- !app_assoc; reflexivity|].
      exact Sl.
Qed.



(** X21: when [main] returns, the last lines that it has printed are the
    statistics, and they add up: the numbers of airlines with and
    without information sum to the number of airlines of the list, and
    so do the numbers of the three confidences; the airlines without
    information are among those of Low confidence. *)
Theorem X21_main_statistics airlines env env' :
  main is_zero airlines env = (Ok tt, env') ->
  let n := length (airlines_list airlines) in
  exists lines found missing high medium low,
    console env' =
      console env ++ Total n :: Rule :: lines
      ++ [ReportSaved final_filename; Rule; StatisticsTitle;
          Checked n; InformationFound found; InformationNotFound missing;
          HighConfidence high; MediumConfidence medium;
          LowConfidence low; FinalReport final_filename; Rule] /\
    found + missing = n /\ high + medium + low = n /\ missing <= low.
Proof.
  intros H n.
  destruct (main_run airlines env)
    as (results & out & env1 & E & Hn & _ & Hr & _ & Hout).
  rewrite H in E. injection E as <- <-. fold n in Hout.
  destruct (main_error (writable env) n results) as [e|];
    [discriminate|].
  destruct Hout as (_ & _ & (lines & Co) & _).
  assert (Hl : length results = n)
    by (unfold n; now rewrite <- Hn, length_map).
  rewrite Hl in Co.
  exists lines. do 5 eexists.
  split; [exact Co|].
  rewrite <- Hl.
  split; [apply count_split|]. split; [apply count_confidence|].
  now apply count_le.
Qed.



End MainFacts.

(** ** The lookup on the example environment *)

Lemma X8_lookup_found_witness :
  let env := example_env (example_search (JList [JStr (str "")]))
                         example_content in
  exists env' extract,
    check_wikipedia (Nat.eqb 0) (str "Pan Am") env
      = (Ok (Found (JStr (str "Pan Am")) (JStr (str "")) extract), env') /\
    sent env' = sent env ++ [Opensearch (str "Pan Am");
                             Extracts (JStr (str "Pan Am"))] /\
    console env' = console env /\
    lower extract = extract.
Proof.
  eexists. eexists. split; [reflexivity|].
  eapply (@X8_lookup_found nat (Nat.eqb 0) (str "Pan Am")
            (example_env (example_search (JList [JStr (str "")]))
                         example_content)).
  reflexivity.
Defined.

Lemma X9_lookup_no_hit_witness :
  let env := example_env (JList [JStr (str "Nowhere Air"); JList []])
                         example_content in
  exists env',
    check_wikipedia (Nat.eqb 0) (str "Nowhere Air") env
      = (Ok (NotFound None), env') /\
    sent env' = sent env ++ [Opensearch (str "Nowhere Air")] /\
    console env' = console env.
Proof.
  apply (@X9_lookup_no_hit nat (Nat.eqb 0) (str "Nowhere Air")
           (example_env (JList [JStr (str "Nowhere Air"); JList []])
                        example_content)
           [JStr (str "Nowhere Air"); JList []] eq_refl).
  right. exists (JStr (str "Nowhere Air")), (JList []), []. auto.
Defined.

Lemma X10_lookup_wrong_type_witness :
  let env := example_env JNone example_content in
  exists env',
    check_wikipedia (Nat.eqb 0) (str "Pan Am") env
      = (Ok (NotFound (Some TypeError)), env') /\
    sent env' = sent env ++ [Opensearch (str "Pan Am")] /\
    console env' = console env ++ [WikipediaError (str "Pan Am") TypeError].
Proof.
  exact (@X10_lookup_wrong_type nat (Nat.eqb 0) (str "Pan Am")
           (example_env JNone example_content) JNone eq_refl eq_refl).
Defined.

Lemma X11_lookup_article_witness :
  let env := example_env (example_search (JList [JStr (str "")]))
                         example_content in
  exists env',
    check_wikipedia (Nat.eqb 0) (str "Pan Am") env
      = (Ok (Found (JStr (str "Pan Am")) (JStr (str ""))
               (lower (str "Pan Am ceased operations in 1991 and was renamed to Pan Am II."))),
         env') /\
    sent env' = sent env ++ [Opensearch (str "Pan Am");
                             Extracts (JStr (str "Pan Am"))] /\
    console env' = console env.
Proof.
  exact (@X11_lookup_article nat (Nat.eqb 0) (str "Pan Am")
           (example_env (example_search (JList [JStr (str "")]))
                        example_content)
           (JStr (str "Pan Am")) (JStr (str "Pan Am")) []
           [JList [JStr (str "")];
            JList [JStr (str "https://en.wikipedia.org/wiki/Pan_Am")]]
           _ _ example_page (str "1234") [] _
           eq_refl eq_refl eq_refl eq_refl eq_refl (JStr (str "")) eq_refl).
Defined.

Lemma X12_lookup_url_error_witness :
  let env := example_env (example_search (JList [])) example_content in
  exists env',
    check_wikipedia (Nat.eqb 0) (str "Pan Am") env
      = (Ok (NotFound (Some IndexError)), env') /\
    sent env' = sent env ++ [Opensearch (str "Pan Am");
                             Extracts (JStr (str "Pan Am"))] /\
    console env' = console env ++ [WikipediaError (str "Pan Am") IndexError].
Proof.
  exact (@X12_lookup_url_error nat (Nat.eqb 0) (str "Pan Am")
           (example_env (example_search (JList [])) example_content)
           (JStr (str "Pan Am")) (JStr (str "Pan Am")) []
           [JList [];
            JList [JStr (str "https://en.wikipedia.org/wiki/Pan_Am")]]
           _ _ example_page (str "1234") [] _
           eq_refl eq_refl eq_refl eq_refl eq_refl
           (JList []) _ IndexError eq_refl eq_refl).
Defined.

(** ** The script on the example environment *)

Lemma X16_airlines_list_tidy_witness :
  tidy (str "Pan Am") = true /\ strip (str "Pan Am") = str "Pan Am" /\
  exists line,
    In line (split_lines two_airlines) /\ str "Pan Am" = strip line.
Proof.
  apply (@X16_airlines_list_tidy two_airlines (str "Pan Am")).
  left. reflexivity.
Defined.

Lemma X19_airlines_list_of_lines_witness :
  airlines_list (join_lines [str "Pan Am"; str "Delta"])
  = [str "Pan Am"; str "Delta"].
Proof.
  apply (@X19_airlines_list_of_lines [str "Pan Am"; str "Delta"]).
  reflexivity.
Defined.


Lemma X18_report_extent_witness :
  cells (status_sheet [example_row]) 1 2
    = header_cell nat (nth 1 headers ""%string) /\
  cells (status_sheet [example_row]) 3 2 = empty_cell nat.
Proof.
  split.
  - apply (proj1 (@X18_report_extent nat [example_row] 1 2));
      [reflexivity|lia].
  - apply (proj2 (@X18_report_extent nat [example_row] 3 2)).
    right. left. cbn [length]. lia.
Defined.


Lemma X21_main_statistics_witness :
  let env := example_env (example_search (JList [JStr (str "")]))
                         example_content in
  let n := length (airlines_list example_airlines) in
  exists env' lines found missing high medium low,
    main (Nat.eqb 0) example_airlines env = (Ok tt, env') /\
    console env' =
      console env ++ Total n :: Rule :: lines
      ++ [ReportSaved final_filename; Rule; StatisticsTitle;
          Checked n; InformationFound found; InformationNotFound missing;
          HighConfidence high; MediumConfidence medium;
          LowConfidence low; FinalReport final_filename; Rule] /\
    found + missing = n /\ high + medium + low = n /\ missing <= low.
Proof.
  intros env n.
  destruct (main (Nat.eqb 0) example_airlines env) as [out env'] eqn:E.
  assert (Ho : out = Ok tt).
  { change out with (fst (out, env')). rewrite <- E.
    vm_compute. reflexivity. }
  subst out. exists env'.
  destruct (@X21_main_statistics nat (Nat.eqb 0) example_airlines env env' E)
    as (lines & found & missing & high & medium & low & H).
  exists lines, found, missing, high, medium, low.
  split; [reflexivity|exact H].
Defined.

